(** * MiniLinkedIn backend: a shallow embedding of the route handlers

    The server is an Express application over Mongoose models.  Each
    collection is a finite map from [_id] to document, each route handler
    is a state transformer over the store that may throw, and the
    [try { ... } catch] around every handler turns a throw into a 500
    response.  Values supplied by the runtime ([new Date()], the [_id] of
    a freshly constructed document, the account resolved by the [protect]
    middleware) are arguments of the handlers. *)

From Stdlib Require Import ZArith Ascii.
From stdpp Require Import base option list sorting gmap strings pretty.

Local Open Scope Z_scope.

(** ** JavaScript strings *)

Module Js.

Definition code (c : ascii) : nat := nat_of_ascii c.

Definition between (lo hi : nat) (c : ascii) : bool :=
  (Nat.leb lo (code c)) && (Nat.leb (code c) hi).

Definition isDigit : ascii → bool := between 48 57.
Definition isUpper : ascii → bool := between 65 90.
Definition isLower : ascii → bool := between 97 122.

(** [\w] of a regular expression without the [u] and [i] flags. *)
Definition isWord (c : ascii) : bool :=
  isDigit c || isUpper c || isLower c || Nat.eqb (code c) 95.

Definition isHex (c : ascii) : bool :=
  isDigit c || between 65 70 c || between 97 102 c.

(** White space removed by [String.prototype.trim], on one-byte
    characters: TAB, LF, VT, FF, CR and SPACE. *)
Definition isSpace (c : ascii) : bool :=
  between 9 13 c || Nat.eqb (code c) 32.

Definition lowerChar (c : ascii) : ascii :=
  if isUpper c then ascii_of_nat (code c + 32) else c.

Fixpoint toLowerCase (s : string) : string :=
  match s with
  | EmptyString => EmptyString
  | String c s' => String (lowerChar c) (toLowerCase s')
  end.

Fixpoint trimStart (s : string) : string :=
  match s with
  | EmptyString => EmptyString
  | String c s' => if isSpace c then trimStart s' else s
  end.

Fixpoint trimEnd (s : string) : string :=
  match s with
  | EmptyString => EmptyString
  | String c s' =>
      match trimEnd s' with
      | EmptyString => if isSpace c then EmptyString else String c EmptyString
      | r => String c r
      end
  end.

Definition trim (s : string) : string := trimEnd (trimStart s).

Fixpoint all (p : ascii → bool) (s : string) : bool :=
  match s with
  | EmptyString => true
  | String c s' => p c && all p s'
  end.

(** [!s] for a string: only the empty string is falsy. *)
Definition isEmpty (s : string) : bool :=
  match s with EmptyString => true | _ => false end.

(** [Array.prototype.sort] without a comparator, on strings: a stable
    sort by code units. *)
Fixpoint insertSorted (x : string) (l : list string) : list string :=
  match l with
  | [] => [x]
  | y :: l' => if String.ltb x y then x :: y :: l' else y :: insertSorted x l'
  end.

Definition sort (l : list string) : list string :=
  foldl (λ acc x, insertSorted x acc) [] l.

Definition join (sep : string) (l : list string) : string :=
  String.concat sep l.

End Js.

(** ** Object ids *)

(** An [ObjectId] is kept as its [toString()] form: 24 lower-case
    hexadecimal digits. *)
Definition ObjectId := string.

(** Mongoose casts a string taken from the URL or the body to an
    [ObjectId] before it queries; a string that is not 24 hexadecimal
    digits raises a [CastError]. *)
Definition castObjectId (s : string) : option ObjectId :=
  if Nat.eqb (String.length s) 24 && Js.all Js.isHex s
  then Some (Js.toLowerCase s) else None.

(** ** Conversation identity (Message model and messages router) *)

(** [[a, b].sort().join('_')] *)
Definition conversationId (a b : string) : string :=
  Js.join "_" (Js.sort [a; b]).

(** ** Documents (server/models) *)

(** Every schema has [timestamps: true].  [createdAt] is kept where a
    route sorts by it; [updatedAt] is kept on messages, where what an
    update leaves alone is at stake, and left out of the other
    documents, which are therefore compared up to [updatedAt]. *)
Definition Date := Z.

(** models/User.js.  The profile attributes (headline, bio, skills,
    experience, privacy, ...) are never read or written by the routes
    below and are left out. *)
Module User.
Record t := mk {
  name : string;
  email : string;
  connections : list ObjectId;
  followers : list ObjectId;
  following : list ObjectId;
  isAdmin : bool
}.

Definition set_connections (f : list ObjectId → list ObjectId) (u : t) : t :=
  mk (name u) (email u) (f (connections u)) (followers u) (following u) (isAdmin u).
End User.

(** models/Connection.js *)
Module Connection.
Inductive Status := pending | accepted | declined | blocked.

Global Instance Status_eq_dec : EqDecision Status.
Proof. solve_decision. Defined.

Record t := mk {
  requester : ObjectId;
  recipient : ObjectId;
  status : Status;
  message : string;
  connectedAt : option Date;
  mutualConnections : Z
}.

Definition set_status (s : Status) (c : t) : t :=
  mk (requester c) (recipient c) s (message c) (connectedAt c) (mutualConnections c).

(** [connectionSchema.pre('save')] *)
Definition preSave (now : Date) (c : t) : t :=
  if bool_decide (status c = accepted) && bool_decide (connectedAt c = None)
  then mk (requester c) (recipient c) (status c) (message c) (Some now)
          (mutualConnections c)
  else c.
End Connection.

(** models/Notification.js *)
Module Notification.
Inductive Type_ :=
  | connection_request | connection_accepted | post_like | post_comment
  | post_share | mention | job_match | message_ | profile_view.

Record t := mk {
  recipient : ObjectId;
  sender : ObjectId;
  type : Type_;
  title : string;
  message : string;
  relatedPost : option ObjectId;
  relatedJob : option ObjectId;
  relatedUser : option ObjectId;
  isRead : bool;
  readAt : option Date;
  createdAt : Date
}.

Definition markRead (now : Date) (n : t) : t :=
  mk (recipient n) (sender n) (type n) (title n) (message n) (relatedPost n)
     (relatedJob n) (relatedUser n) true (Some now) (createdAt n).
End Notification.

(** models/Post.js *)
Module Post.
Inductive Type_ := text | image | link_ | job_share.
Inductive Visibility := public | connections | private.

Global Instance Visibility_eq_dec : EqDecision Visibility.
Proof. solve_decision. Defined.

Record Comment := mkComment {
  user : ObjectId;
  commentContent : string;
  commentLikes : list ObjectId;
  commentedAt : Date
}.

Record Share := mkShare { sharer : ObjectId; sharedAt : Date }.

Record Link := mkLink {
  url : string; linkTitle : string; description : string; linkImage : string
}.

Record t := mk {
  author : ObjectId;
  content : string;
  type : Type_;
  images : list string;
  link : option Link;
  hashtags : list string;
  mentions : list ObjectId;
  likes : list ObjectId;
  comments : list Comment;
  shares : list Share;
  visibility : Visibility;
  isReported : bool;
  engagementScore : nat;
  createdAt : Date
}.

Definition set_likes (l : list ObjectId) (p : t) : t :=
  mk (author p) (content p) (type p) (images p) (link p) (hashtags p)
     (mentions p) l (comments p) (shares p) (visibility p) (isReported p)
     (engagementScore p) (createdAt p).

Definition set_comments (l : list Comment) (p : t) : t :=
  mk (author p) (content p) (type p) (images p) (link p) (hashtags p)
     (mentions p) (likes p) l (shares p) (visibility p) (isReported p)
     (engagementScore p) (createdAt p).

Definition set_shares (l : list Share) (p : t) : t :=
  mk (author p) (content p) (type p) (images p) (link p) (hashtags p)
     (mentions p) (likes p) (comments p) l (visibility p) (isReported p)
     (engagementScore p) (createdAt p).

(** [postSchema.pre('save')] *)
Definition preSave (p : t) : t :=
  mk (author p) (content p) (type p) (images p) (link p) (hashtags p)
     (mentions p) (likes p) (comments p) (shares p) (visibility p)
     (isReported p)
     (length (likes p) + length (comments p) + length (shares p) * 2)%nat
     (createdAt p).
End Post.

(** models/Job.js.  Of the posting metadata only the title is read by
    the apply route (for the notification text). *)
Module Job.
Inductive AppStatus :=
  applied | reviewing | shortlisted | interviewed | rejected | hired.

Record Application := mkApplication {
  applicant : ObjectId;
  coverLetter : option string;
  resumeUrl : option string;
  status : AppStatus;
  appliedAt : Date
}.

Record t := mk {
  title : string;
  company : string;
  poster : ObjectId;
  applications : list Application;
  isActive : bool;
  views : nat
}.

Definition set_applications (l : list Application) (j : t) : t :=
  mk (title j) (company j) (poster j) l (isActive j) (views j).
End Job.

(** models/Message.js *)
Module Message.
Inductive Type_ := text | image | file.

Record t := mk {
  sender : ObjectId;
  recipient : ObjectId;
  content : string;
  type : Type_;
  fileUrl : option string;
  fileName : option string;
  fileSize : option Z;
  readAt : option Date;
  conversationId : option string;
  createdAt : Date;
  updatedAt : Date
}.

Definition set_readAt (d : option Date) (m : t) : t :=
  mk (sender m) (recipient m) (content m) (type m) (fileUrl m) (fileName m)
     (fileSize m) d (conversationId m) (createdAt m) (updatedAt m).

(** [timestamps: true]: every update stamps [updatedAt]. *)
Definition set_updatedAt (d : Date) (m : t) : t :=
  mk (sender m) (recipient m) (content m) (type m) (fileUrl m) (fileName m)
     (fileSize m) (readAt m) (conversationId m) (createdAt m) d.

(** [!this.conversationId] *)
Definition unset (c : option string) : bool :=
  match c with None => true | Some s => Js.isEmpty s end.

(** [messageSchema.pre('save')] *)
Definition preSave (m : t) : t :=
  if unset (conversationId m)
  then mk (sender m) (recipient m) (content m) (type m) (fileUrl m)
          (fileName m) (fileSize m) (readAt m)
          (Some (Js.join "_" (Js.sort [sender m; recipient m])))
          (createdAt m) (updatedAt m)
  else m.

(** The validators of the schema: [content] is required and holds at
    most 1000 characters, [conversationId] is required ([sender] and
    [recipient] are always there, and [type] is in its enum by its
    type).  A required string must be present and not empty. *)
Definition valid (m : t) : bool :=
  negb (Js.isEmpty (content m))
  && Nat.leb (String.length (content m)) 1000
  && negb (unset (conversationId m)).
End Message.

(** ** The database *)

Record Store := mkStore {
  users : gmap ObjectId User.t;
  connections : gmap ObjectId Connection.t;
  posts : gmap ObjectId Post.t;
  jobs : gmap ObjectId Job.t;
  messages : gmap ObjectId Message.t;
  notifications : gmap ObjectId Notification.t
}.

Definition emptyStore : Store := mkStore ∅ ∅ ∅ ∅ ∅ ∅.

Definition set_users (f : gmap ObjectId User.t → gmap ObjectId User.t) (s : Store) :=
  mkStore (f (users s)) (connections s) (posts s) (jobs s) (messages s) (notifications s).
Definition set_connections
    (f : gmap ObjectId Connection.t → gmap ObjectId Connection.t) (s : Store) :=
  mkStore (users s) (f (connections s)) (posts s) (jobs s) (messages s) (notifications s).
Definition set_posts (f : gmap ObjectId Post.t → gmap ObjectId Post.t) (s : Store) :=
  mkStore (users s) (connections s) (f (posts s)) (jobs s) (messages s) (notifications s).
Definition set_jobs (f : gmap ObjectId Job.t → gmap ObjectId Job.t) (s : Store) :=
  mkStore (users s) (connections s) (posts s) (f (jobs s)) (messages s) (notifications s).
Definition set_messages
    (f : gmap ObjectId Message.t → gmap ObjectId Message.t) (s : Store) :=
  mkStore (users s) (connections s) (posts s) (jobs s) (f (messages s)) (notifications s).
Definition set_notifications
    (f : gmap ObjectId Notification.t → gmap ObjectId Notification.t) (s : Store) :=
  mkStore (users s) (connections s) (posts s) (jobs s) (messages s) (f (notifications s)).

(** ** Asynchronous database actions: state and exceptions *)

Inductive outcome (A : Type) := Return (a : A) | Throw.
Arguments Return {A} a.
Arguments Throw {A}.

Definition Action (A : Type) : Type := Store → outcome A * Store.

Global Instance Action_ret : MRet Action := λ A a s, (Return a, s).
Global Instance Action_bind : MBind Action := λ A B f m s,
  match m s with
  | (Return a, s') => f a s'
  | (Throw, s') => (Throw, s')
  end.

Definition throw {A} : Action A := λ s, (Throw, s).
Definition gets {A} (f : Store → A) : Action A := λ s, (Return (f s), s).
Definition modify (f : Store → Store) : Action () := λ s, (Return (), f s).

(** The cast Mongoose applies to a raw string where a schema path is an
    ObjectId. *)
Definition cast (raw : string) : Action ObjectId :=
  match castObjectId raw with
  | Some i => mret i
  | None => throw
  end.

(** The account attached to the request by the [protect] middleware
    ([req.user]). *)
Record Auth := mkAuth { _id : ObjectId; name : string; isAdmin : bool }.

(** ** Responses *)

Inductive Payload :=
  | NoPayload
  | LikeInfo (isLiked : bool) (likesCount : nat)
  | SharesCount (sharesCount : nat)
  | CommentAdded (comment : option Post.Comment)
  | PostCreated (post : option Post.t)
  | PostPage (posts : list (ObjectId * Post.t)) (totalPages : nat) (currentPage : positive)
  | NotificationPage (items : list (ObjectId * Notification.t))
      (totalPages : nat) (currentPage : positive) (total unreadCount : nat)
  | MessagePage (msgs : list (ObjectId * Message.t)) (convId : string)
  | MessageSent (sent : option Message.t).

Record Response := mkResponse {
  status : nat;
  success : bool;
  message : string;
  payload : Payload
}.

(** [res.status(code).json({ message })] *)
Definition fail (code : nat) (msg : string) : Response :=
  mkResponse code false msg NoPayload.

(** [res.json({ success: true, message, ... })] *)
Definition ok (code : nat) (msg : string) (p : Payload) : Response :=
  mkResponse code true msg p.

Definition Handler : Type := Store → Response * Store.

(** [try { ... } catch (error) { res.status(500).json({ message }) }] *)
Definition tryCatch (msg : string) (body : Action Response) : Handler := λ s,
  match body s with
  | (Return r, s') => (r, s')
  | (Throw, s') => (fail 500 msg, s')
  end.

(** ** Queries and updates of the models *)

(** [$addToSet] and [$pull] on an array of ids. *)
Definition addToSet (x : ObjectId) (l : list ObjectId) : list ObjectId :=
  if bool_decide (x ∈ l) then l else l ++ [x].

Definition pull (x : ObjectId) (l : list ObjectId) : list ObjectId :=
  filter (λ y, y ≠ x) l.

Definition User_findById (i : ObjectId) : Action (option User.t) :=
  gets (λ s, users s !! i).

(** [User.findByIdAndUpdate(i, update)]: no document, no effect. *)
Definition User_findByIdAndUpdate (i : ObjectId) (update : User.t → User.t) : Action () :=
  modify (set_users (alter update i)).

Definition Connection_findById (i : ObjectId) : Action (option Connection.t) :=
  gets (λ s, connections s !! i).

Definition Connection_findOne (q : Connection.t → bool) :
    Action (option (ObjectId * Connection.t)) :=
  gets (λ s, List.find (λ d, q d.2) (map_to_list (connections s))).

(** The unique index on [{ requester, recipient }]. *)
Definition duplicatesPair (c : Connection.t) (d : ObjectId * Connection.t) : bool :=
  bool_decide (Connection.requester d.2 = Connection.requester c)
  && bool_decide (Connection.recipient d.2 = Connection.recipient c).

(** [connection.save()]: the pre-save hook, then the write.  A new
    document ([isNew]) is inserted, which the unique index rejects with
    a duplicate-key error; a loaded document is updated in place, and
    no route changes its indexed paths. *)
Definition Connection_save (isNew : bool) (i : ObjectId) (now : Date)
    (c : Connection.t) : Action () :=
  existing ← gets (λ s, map_to_list (connections s));
  if isNew && existsb (duplicatesPair c) existing then throw
  else modify (set_connections <[i := Connection.preSave now c]>).

Definition Notification_save (i : ObjectId) (n : Notification.t) : Action () :=
  modify (set_notifications <[i := n]>).

Definition Post_findById (i : ObjectId) : Action (option Post.t) :=
  gets (λ s, posts s !! i).

Definition Post_save (i : ObjectId) (p : Post.t) : Action () :=
  modify (set_posts <[i := Post.preSave p]>).

Definition Post_find (q : Post.t → bool) : Action (list (ObjectId * Post.t)) :=
  gets (λ s, List.filter (λ d, q d.2) (map_to_list (posts s))).

Definition Post_countDocuments (q : Post.t → bool) : Action nat :=
  gets (λ s, length (List.filter (λ d, q d.2) (map_to_list (posts s)))).

(** [.limit(limit * 1).skip((page - 1) * limit)] for numeric, positive
    [page] and [limit]. *)
Definition paginate {A} (page limit : positive) (l : list A) : list A :=
  take (Pos.to_nat limit) (drop ((Pos.to_nat page - 1) * Pos.to_nat limit) l).

(** [Math.ceil(total / limit)] *)
Definition totalPages (total : nat) (limit : positive) : nat :=
  Nat.div (total + Pos.to_nat limit - 1) (Pos.to_nat limit).

(** ** routes/connections.js *)

Definition connectionRequestNotice (me : Auth) (to : ObjectId) (now : Date) :=
  Notification.mk to (_id me) Notification.connection_request
    "New Connection Request" (name me +:+ " wants to connect with you")
    None None (Some (_id me)) false None now.

Definition connectionAcceptedNotice (me : Auth) (to : ObjectId) (now : Date) :=
  Notification.mk to (_id me) Notification.connection_accepted
    "Connection Accepted" (name me +:+ " accepted your connection request")
    None None (Some (_id me)) false None now.

(** The [$or] filter used by the existing-connection check. *)
Definition betweenPair (a b : ObjectId) (c : Connection.t) : bool :=
  (bool_decide (Connection.requester c = a) && bool_decide (Connection.recipient c = b))
  || (bool_decide (Connection.requester c = b) && bool_decide (Connection.recipient c = a)).

(** [router.post('/request')] *)
Definition sendRequest (me : Auth) (userId : option string)
    (message : option string) (now : Date) (cid nid : ObjectId) : Handler :=
  tryCatch "Error sending connection request" (
    match userId with
    | None => mret (fail 400 "User ID is required")
    | Some userId =>
      if Js.isEmpty userId then mret (fail 400 "User ID is required")
      else if bool_decide (userId = _id me)
      then mret (fail 400 "Cannot connect to yourself")
      else
        target ← cast userId;
        targetUser ← User_findById target;
        match targetUser with
        | None => mret (fail 404 "User not found")
        | Some _ =>
          existingConnection ← Connection_findOne (betweenPair (_id me) target);
          match existingConnection with
          | Some _ =>
              mret (fail 400
                "Connection request already exists or you are already connected")
          | None =>
              Connection_save true cid now
                (Connection.mk (_id me) target Connection.pending
                   (Js.trim (default "" message)) None 0);;
              Notification_save nid (connectionRequestNotice me target now);;
              mret (ok 201 "Connection request sent successfully" NoPayload)
          end
        end
    end).

(** [router.put('/request/:id/:action')] *)
Definition processRequest (me : Auth) (id action : string)
    (now : Date) (nid : ObjectId) : Handler :=
  tryCatch "Error processing connection request" (
    if negb (bool_decide (action ∈ ["accept"; "decline"]))
    then mret (fail 400 "Invalid action")
    else
      cid ← cast id;
      connection ← Connection_findById cid;
      match connection with
      | None => mret (fail 404 "Connection request not found")
      | Some connection =>
        if bool_decide (Connection.recipient connection ≠ _id me)
        then mret (fail 403 "Not authorized")
        else if bool_decide (Connection.status connection ≠ Connection.pending)
        then mret (fail 400 "Connection request already processed")
        else if bool_decide (action = "accept") then
          let connection := Connection.set_status Connection.accepted connection in
          Connection_save false cid now connection;;
          User_findByIdAndUpdate (Connection.requester connection)
            (User.set_connections (addToSet (Connection.recipient connection)));;
          User_findByIdAndUpdate (Connection.recipient connection)
            (User.set_connections (addToSet (Connection.requester connection)));;
          Notification_save nid
            (connectionAcceptedNotice me (Connection.requester connection) now);;
          mret (ok 200 "Connection request accepted" NoPayload)
        else
          let connection := Connection.set_status Connection.declined connection in
          Connection_save false cid now connection;;
          mret (ok 200 "Connection request declined" NoPayload)
      end).

(** ** routes/posts.js *)

Definition postNotice (me : Auth) (to : ObjectId) (ty : Notification.Type_)
    (title verb : string) (pid : ObjectId) (now : Date) :=
  Notification.mk to (_id me) ty title (name me +:+ verb)
    (Some pid) None None false None now.

(** [router.post('/')] *)
Definition createPost (me : Auth) (content : option string)
    (type : option Post.Type_) (images : option (list string))
    (link : option Post.Link) (hashtags : option (list string))
    (now : Date) (pid : ObjectId) : Handler :=
  tryCatch "Error creating post" (
    match content with
    | None => mret (fail 400 "Post content is required")
    | Some content =>
      if Js.isEmpty content || Nat.eqb (String.length (Js.trim content)) 0
      then mret (fail 400 "Post content is required")
      else
        let post :=
          Post.mk (_id me) (Js.trim content) (default Post.text type)
            (default [] images) link
            (map Js.toLowerCase (default [] hashtags))
            [] [] [] [] Post.public false 0 now in
        Post_save pid post;;
        populatedPost ← Post_findById pid;
        mret (ok 201 "Post created successfully" (PostCreated populatedPost))
    end).

(** The feed query: [$or: [{ author: { $in: feedUserIds } },
    { engagementScore: { $gte: 10 } }], visibility: { $in: [...] }]. *)
Definition feedQuery (feedUserIds : list ObjectId) (p : Post.t) : bool :=
  (bool_decide (Post.author p ∈ feedUserIds) || Nat.leb 10 (Post.engagementScore p))
  && bool_decide (Post.visibility p ∈ [Post.public; Post.connections]).

(** [.sort({ createdAt: -1, engagementScore: -1 })]: [feedOrder a b]
    when [a] may come before [b]. *)
Definition feedOrder (a b : ObjectId * Post.t) : Prop :=
  Post.createdAt b.2 < Post.createdAt a.2
  ∨ (Post.createdAt a.2 = Post.createdAt b.2
     ∧ (Post.engagementScore b.2 ≤ Post.engagementScore a.2)%nat).

Global Instance feedOrder_dec : RelDecision feedOrder.
Proof. intros a b. unfold feedOrder. apply _. Defined.

(** The posts the feed query selects, in feed order, before paging. *)
Definition feedListing (feedUserIds : list ObjectId) (s : Store) :
    list (ObjectId * Post.t) :=
  merge_sort feedOrder
    (List.filter (λ d, feedQuery feedUserIds d.2) (map_to_list (posts s))).

(** [router.get('/feed')] *)
Definition getFeed (me : Auth) (page limit : positive) : Handler :=
  tryCatch "Error fetching feed" (
    currentUser ← User_findById (_id me);
    match currentUser with
    | None => throw
    | Some currentUser =>
      let feedUserIds :=
        User.connections currentUser ++ User.following currentUser ++ [_id me] in
      posts ← gets (λ s, paginate page limit (feedListing feedUserIds s));
      total ← Post_countDocuments (feedQuery feedUserIds);
      mret (ok 200 "" (PostPage posts (totalPages total limit) page))
    end).

(** [router.post('/:id/like')] *)
Definition likePost (me : Auth) (id : string) (now : Date) (nid : ObjectId) : Handler :=
  tryCatch "Error updating like status" (
    pid ← cast id;
    post ← Post_findById pid;
    match post with
    | None => mret (fail 404 "Post not found")
    | Some post =>
      let isLiked := bool_decide (_id me ∈ Post.likes post) in
      if isLiked then
        let post := Post.set_likes (filter (λ i, i ≠ _id me) (Post.likes post)) post in
        Post_save pid post;;
        mret (ok 200 "Post unliked" (LikeInfo false (length (Post.likes post))))
      else
        let post := Post.set_likes (Post.likes post ++ [_id me]) post in
        Post_save pid post;;
        (if bool_decide (Post.author post ≠ _id me)
         then Notification_save nid
                (postNotice me (Post.author post) Notification.post_like
                   "Post Liked" " liked your post" pid now)
         else mret ());;
        mret (ok 200 "Post liked" (LikeInfo true (length (Post.likes post))))
    end).

(** [router.post('/:id/comment')] *)
Definition addComment (me : Auth) (id : string) (content : option string)
    (now : Date) (nid : ObjectId) : Handler :=
  tryCatch "Error adding comment" (
    match content with
    | None => mret (fail 400 "Comment content is required")
    | Some content =>
      if Js.isEmpty content || Nat.eqb (String.length (Js.trim content)) 0
      then mret (fail 400 "Comment content is required")
      else
        pid ← cast id;
        post ← Post_findById pid;
        match post with
        | None => mret (fail 404 "Post not found")
        | Some post =>
          let newComment := Post.mkComment (_id me) (Js.trim content) [] now in
          let post := Post.set_comments (Post.comments post ++ [newComment]) post in
          Post_save pid post;;
          updatedPost ← Post_findById pid;
          (if bool_decide (Post.author post ≠ _id me)
           then Notification_save nid
                  (postNotice me (Post.author post) Notification.post_comment
                     "New Comment" " commented on your post" pid now)
           else mret ());;
          match updatedPost with
          | None => throw
          | Some updatedPost =>
              mret (ok 200 "Comment added successfully"
                      (CommentAdded (last (Post.comments updatedPost))))
          end
        end
    end).

(** [router.post('/:id/share')] *)
Definition sharePost (me : Auth) (id : string) (now : Date) (nid : ObjectId) : Handler :=
  tryCatch "Error sharing post" (
    pid ← cast id;
    post ← Post_findById pid;
    match post with
    | None => mret (fail 404 "Post not found")
    | Some post =>
      let existingShare :=
        List.find (λ share, bool_decide (Post.sharer share = _id me)) (Post.shares post) in
      match existingShare with
      | Some _ => mret (fail 400 "Post already shared")
      | None =>
        let post := Post.set_shares (Post.shares post ++ [Post.mkShare (_id me) now]) post in
        Post_save pid post;;
        (if bool_decide (Post.author post ≠ _id me)
         then Notification_save nid
                (postNotice me (Post.author post) Notification.post_share
                   "Post Shared" " shared your post" pid now)
         else mret ());;
        mret (ok 200 "Post shared successfully" (SharesCount (length (Post.shares post))))
      end
    end).

(** [extractHashtags] of CreatePostPage.tsx and CreatePostModal.tsx:
    [text.match(/#(\w+)/g)], then [tag.slice(1).toLowerCase()] on each
    match.  [scanHashtags] reads the text once; [cur] is [Some t] after a
    [#] followed by the word characters [t] (reversed). *)
Definition flushTag (cur : option (list ascii)) : list string :=
  match cur with
  | Some (c :: t) => [Js.toLowerCase (String.string_of_list_ascii (rev (c :: t)))]
  | _ => []
  end.

Fixpoint scanHashtags (cur : option (list ascii)) (text : string) : list string :=
  match text with
  | EmptyString => flushTag cur
  | String c rest =>
      match cur with
      | Some t =>
          if Js.isWord c then scanHashtags (Some (c :: t)) rest
          else flushTag cur ++
               scanHashtags (if Ascii.eqb c "#" then Some [] else None) rest
      | None => scanHashtags (if Ascii.eqb c "#" then Some [] else None) rest
      end
  end.

Definition extractHashtags (text : string) : list string :=
  scanHashtags None text.

(** ** routes/jobs.js *)

Definition Job_findById (i : ObjectId) : Action (option Job.t) :=
  gets (λ s, jobs s !! i).

Definition Job_save (i : ObjectId) (j : Job.t) : Action () :=
  modify (set_jobs <[i := j]>).

(** [router.post('/:id/apply')] *)
Definition applyToJob (me : Auth) (id : string) (coverLetter resumeUrl : option string)
    (now : Date) (nid : ObjectId) : Handler :=
  tryCatch "Error submitting application" (
    jid ← cast id;
    job ← Job_findById jid;
    match job with
    | None => mret (fail 404 "Job not found")
    | Some job =>
      if negb (Job.isActive job)
      then mret (fail 400 "Job posting is no longer active")
      else
        let existingApplication :=
          List.find (λ app, bool_decide (Job.applicant app = _id me))
            (Job.applications job) in
        match existingApplication with
        | Some _ => mret (fail 400 "You have already applied to this job")
        | None =>
          let job :=
            Job.set_applications
              (Job.applications job ++
                 [Job.mkApplication (_id me) coverLetter resumeUrl Job.applied now])
              job in
          Job_save jid job;;
          Notification_save nid
            (Notification.mk (Job.poster job) (_id me) Notification.job_match
               "New Job Application"
               (name me +:+ " applied to your job: " +:+ Job.title job)
               None (Some jid) (Some (_id me)) false None now);;
          mret (ok 200 "Application submitted successfully" NoPayload)
        end
    end).

(** ** routes/messages.js *)

Definition Message_findById (i : ObjectId) : Action (option Message.t) :=
  gets (λ s, messages s !! i).

(** [message.save()] of a new document: Mongoose validates it first
    and rejects with a ValidationError, then runs the pre-save hook,
    then inserts. *)
Definition Message_save (i : ObjectId) (m : Message.t) : Action () :=
  if Message.valid m
  then modify (set_messages <[i := Message.preSave m]>)
  else throw.

(** [Message.updateMany(filter, update)]: every document the filter
    selects gets the update and, the schema having [timestamps: true],
    a new [updatedAt]: the time [stamp] at which Mongoose runs the
    update. *)
Definition Message_updateMany (stamp : Date) (q : Message.t → bool)
    (update : Message.t → Message.t) : Action () :=
  modify (set_messages (fmap (λ m,
    if q m then Message.set_updatedAt stamp (update m) else m))).

(** [.sort({ createdAt: -1 })] *)
Definition newestFirst {A} (createdAt : A → Date) (a b : ObjectId * A) : Prop :=
  createdAt b.2 ≤ createdAt a.2.

Global Instance newestFirst_dec {A} (f : A → Date) : RelDecision (newestFirst f).
Proof. intros a b. unfold newestFirst. apply _. Defined.

(** The filter [{ conversationId, recipient: req.user._id, readAt: null }]. *)
Definition unreadFor (me : Auth) (cid : string) (m : Message.t) : bool :=
  bool_decide (Message.conversationId m = Some cid)
  && bool_decide (Message.recipient m = _id me)
  && bool_decide (Message.readAt m = None).

(** [router.post('/')] *)
Definition sendMessage (me : Auth) (recipient content : option string)
    (type : option Message.Type_) (now : Date) (mid : ObjectId) : Handler :=
  tryCatch "Error sending message" (
    match recipient, content with
    | Some recipient, Some content =>
      if Js.isEmpty recipient || Js.isEmpty content
      then mret (fail 400 "Recipient and content are required")
      else
        rid ← cast recipient;
        recipientUser ← User_findById rid;
        match recipientUser with
        | None => mret (fail 404 "Recipient not found")
        | Some _ =>
          let message :=
            Message.mk (_id me) rid content (default Message.text type)
              None None None None None now now in
          Message_save mid message;;
          populatedMessage ← Message_findById mid;
          mret (ok 201 "" (MessageSent populatedMessage))
        end
    | _, _ => mret (fail 400 "Recipient and content are required")
    end).

(** [router.get('/conversation/:userId')]; [now] is the [new Date()] of
    the handler. *)
Definition getConversation (me : Auth) (userId : string) (page limit : positive)
    (now stamp : Date) : Handler :=
  tryCatch "Error fetching conversation" (
    let conversationId := conversationId (_id me) userId in
    messages ← gets (λ s,
      paginate page limit
        (merge_sort (newestFirst Message.createdAt)
           (List.filter
              (λ d, bool_decide (Message.conversationId d.2 = Some conversationId))
              (map_to_list (messages s)))));
    Message_updateMany stamp (unreadFor me conversationId)
      (Message.set_readAt (Some now));;
    mret (ok 200 "" (MessagePage (rev messages) conversationId))).

(** [router.put('/read/:conversationId')] *)
Definition markConversationRead (me : Auth) (conversationId : string)
    (now stamp : Date) : Handler :=
  tryCatch "Error marking messages as read" (
    Message_updateMany stamp (unreadFor me conversationId)
      (Message.set_readAt (Some now));;
    mret (ok 200 "Messages marked as read" NoPayload)).

(** ** routes/notifications.js *)

Definition Notification_findById (i : ObjectId) : Action (option Notification.t) :=
  gets (λ s, notifications s !! i).

Definition listQuery (me : Auth) (unread : option string) (n : Notification.t) : bool :=
  bool_decide (Notification.recipient n = _id me)
  && (if bool_decide (unread = Some "true") then negb (Notification.isRead n) else true).

(** [router.get('/')] *)
Definition getNotifications (me : Auth) (page limit : positive)
    (unread : option string) : Handler :=
  tryCatch "Error fetching notifications" (
    found ← gets (λ s,
      paginate page limit
        (merge_sort (newestFirst Notification.createdAt)
           (List.filter (λ d, listQuery me unread d.2)
              (map_to_list (notifications s)))));
    total ← gets (λ s,
      length (List.filter (λ d, listQuery me unread d.2)
                (map_to_list (notifications s))));
    unreadCount ← gets (λ s,
      length (List.filter (λ d, listQuery me (Some "true") d.2)
                (map_to_list (notifications s))));
    mret (ok 200 ""
            (NotificationPage found (totalPages total limit) page total unreadCount))).

(** [router.put('/:id/read')] *)
Definition markNotificationRead (me : Auth) (id : string) (now : Date) : Handler :=
  tryCatch "Error updating notification" (
    nid ← cast id;
    notification ← Notification_findById nid;
    match notification with
    | None => mret (fail 404 "Notification not found")
    | Some notification =>
      if bool_decide (Notification.recipient notification ≠ _id me)
      then mret (fail 403 "Not authorized")
      else
        Notification_save nid (Notification.markRead now notification);;
        mret (ok 200 "Notification marked as read" NoPayload)
    end).

(** [router.put('/read-all')] *)
Definition markAllRead (me : Auth) (now : Date) : Handler :=
  tryCatch "Error marking all notifications as read" (
    modify (set_notifications (fmap (λ n,
      if bool_decide (Notification.recipient n = _id me) && negb (Notification.isRead n)
      then Notification.markRead now n else n)));;
    mret (ok 200 "All notifications marked as read" NoPayload)).

(** [router.delete('/:id')] *)
Definition deleteNotification (me : Auth) (id : string) : Handler :=
  tryCatch "Error deleting notification" (
    nid ← cast id;
    notification ← Notification_findById nid;
    match notification with
    | None => mret (fail 404 "Notification not found")
    | Some notification =>
      if bool_decide (Notification.recipient notification ≠ _id me)
      then mret (fail 403 "Not authorized")
      else
        modify (set_notifications (delete nid));;
        mret (ok 200 "Notification deleted" NoPayload)
    end).

(** [Notification.deleteMany({ recipient })], returning [deletedCount]. *)
Definition Notification_deleteMany (recipient : ObjectId) : Action nat :=
  deletedCount ← gets (λ s,
    size (filter (λ d, Notification.recipient d.2 = recipient) (notifications s)));
  modify (set_notifications (filter (λ d, Notification.recipient d.2 ≠ recipient)));;
  mret deletedCount.

(** [router.delete('/clear-all')] *)
Definition clearAll (me : Auth) : Handler :=
  tryCatch "Error clearing notifications" (
    deletedCount ← Notification_deleteMany (_id me);
    mret (ok 200 ("Deleted " +:+ pretty deletedCount +:+ " notifications") NoPayload)).

(** ** Express routing *)

Inductive Method := GET | POST | PUT | DELETE.

Global Instance Method_eq_dec : EqDecision Method.
Proof. solve_decision. Defined.

(** What a handler reads from [req]: the path, the account set by
    [protect], the numeric query parameters, and the clock. *)
Record Request := mkRequest {
  method : Method;
  url : string;
  user : Auth;
  queryPage : option positive;
  queryLimit : option positive;
  queryUnread : option string;
  time : Date
}.

Fixpoint splitAt (sep : ascii) (cur : list ascii) (s : string) : list string :=
  match s with
  | EmptyString => [String.string_of_list_ascii (rev cur)]
  | String c rest =>
      if Ascii.eqb c sep
      then String.string_of_list_ascii (rev cur) :: splitAt sep [] rest
      else splitAt sep (c :: cur) rest
  end.

Definition segments (path : string) : list string :=
  filter (λ s, s ≠ "") (splitAt "/" [] path).

Definition Params := list (string * string).

(** A pattern segment [:name] binds any path segment; any other segment
    matches itself (routing is case-insensitive by default). *)
Definition matchSegment (pat seg : string) : option Params :=
  match pat with
  | String ":" name => Some [(name, seg)]
  | _ => if bool_decide (Js.toLowerCase pat = Js.toLowerCase seg) then Some [] else None
  end.

Fixpoint matchSegments (pats segs : list string) : option Params :=
  match pats, segs with
  | [], [] => Some []
  | p :: pats', s :: segs' =>
      match matchSegment p s, matchSegments pats' segs' with
      | Some b, Some bs => Some (b ++ bs)
      | _, _ => None
      end
  | _, _ => None
  end.

Definition matchPath (pattern path : string) : option Params :=
  matchSegments (segments pattern) (segments path).

Definition param (name : string) (ps : Params) : string :=
  default "" (snd <$> List.find (λ b, bool_decide (b.1 = name)) ps).

Definition Route : Type := Method * string * (Request → Params → Handler).

(** A router tries its routes in the order they were registered; the
    first whose method and path match handles the request (no handler
    here calls [next]).  [None]: the request falls through the router. *)
Fixpoint dispatch (routes : list Route) (req : Request) : option Handler :=
  match routes with
  | [] => None
  | (m, pattern, handler) :: routes' =>
      match (if bool_decide (m = method req) then matchPath pattern (url req) else None) with
      | Some ps => Some (handler req ps)
      | None => dispatch routes' req
      end
  end.

(** The notification router, in registration order. *)
Definition notificationRouter : list Route :=
  [ (GET, "/", λ req _,
       getNotifications (user req) (default 1%positive (queryPage req))
         (default 20%positive (queryLimit req)) (queryUnread req));
    (PUT, "/:id/read", λ req ps,
       markNotificationRead (user req) (param "id" ps) (time req));
    (PUT, "/read-all", λ req _, markAllRead (user req) (time req));
    (DELETE, "/:id", λ req ps, deleteNotification (user req) (param "id" ps));
    (DELETE, "/clear-all", λ req _, clearAll (user req)) ].

(** ** Vocabulary of the statements *)

(** What the like route does to the like array, in one expression. *)
Definition toggleLike (u : ObjectId) (likes : list ObjectId) : list ObjectId :=
  if bool_decide (u ∈ likes) then filter (λ i, i ≠ u) likes else likes ++ [u].

(** The value the pre-save hook of a post stores. *)
Definition scoreOk (p : Post.t) : Prop :=
  Post.engagementScore p
  = (length (Post.likes p) + length (Post.comments p) + 2 * length (Post.shares p))%nat.

(** The mutating operations of the posts router that call [post.save()]. *)
Inductive PostOp :=
  | OpCreate (content : option string) (type : option Post.Type_)
      (images : option (list string)) (link : option Post.Link)
      (hashtags : option (list string)) (pid : ObjectId)
  | OpLike (id : string)
  | OpComment (id : string) (content : option string)
  | OpShare (id : string).

Definition runPostOp (me : Auth) (now : Date) (nid : ObjectId) (op : PostOp) : Handler :=
  match op with
  | OpCreate content type images link hashtags pid =>
      createPost me content type images link hashtags now pid
  | OpLike id => likePost me id now nid
  | OpComment id content => addComment me id content now nid
  | OpShare id => sharePost me id now nid
  end.

(** The post an operation is aimed at. *)
Definition targetOf (op : PostOp) : option ObjectId :=
  match op with
  | OpCreate _ _ _ _ _ pid => Some pid
  | OpLike id | OpComment id _ | OpShare id => castObjectId id
  end.

(** ** Sample data *)

Definition alice : Auth := mkAuth "aaaaaaaaaaaaaaaaaaaaaaaa" "Alice" false.
Definition bob : Auth := mkAuth "bbbbbbbbbbbbbbbbbbbbbbbb" "Bob" false.

Definition account (a : Auth) : User.t :=
  User.mk (name a) (name a +:+ "@example.com") [] [] [] false.

(** Two registered accounts and nothing else. *)
Definition twoAccounts : Store :=
  set_users (λ _, <[_id alice := account alice]> (<[_id bob := account bob]> ∅)) emptyStore.

Definition id1 : ObjectId := "000000000000000000000001".
Definition id2 : ObjectId := "000000000000000000000002".
Definition id3 : ObjectId := "000000000000000000000003".
Definition id4 : ObjectId := "000000000000000000000004".

(** Alice has asked Bob to connect; Bob has not answered yet. *)
Definition pendingStore : Store :=
  set_connections
    (λ _, {[ id1 := Connection.mk (_id alice) (_id bob) Connection.pending
                      "Let's connect" None 0 ]})
    twoAccounts.

(** ... and Bob has accepted. *)
Definition acceptedStore : Store :=
  (processRequest bob id1 "accept" 5 id2 pendingStore).2.


(** The post of id [i] as stored, and its like array. *)
Definition likesOf (i : ObjectId) (s : Store) : option (list ObjectId) :=
  Post.likes <$> posts s !! i.

(** Alice has published one post. *)
Definition onePost : Store :=
  (createPost alice (Some "Hello #test") (Some Post.text) None None
     (Some (extractHashtags "Hello #test")) 10 id1 twoAccounts).2.

(** Alice has posted a job and closed it. *)
Definition closedJob : Job.t := Job.mk "Engineer" "Acme" (_id alice) [] false 0.

Definition closedJobStore : Store := set_jobs (λ _, {[ id1 := closedJob ]}) twoAccounts.

(** The same job, open. *)
Definition openJobStore : Store :=
  set_jobs (λ _, {[ id1 := Job.mk "Engineer" "Acme" (_id alice) [] true 0 ]}) twoAccounts.

(** What reading a conversation may change: nothing outside the message
    collection; no message appears or disappears; a message of
    conversation [cid] addressed to [me] and not read yet gets
    [readAt = now] and [updatedAt = stamp]; every other message is left
    as it is; and no field but [readAt] and [updatedAt] differs. *)
Definition marksOnlyUnreadIncoming (me : Auth) (cid : string) (now stamp : Date)
    (s s' : Store) : Prop :=
  users s' = users s ∧ connections s' = connections s ∧ posts s' = posts s
  ∧ jobs s' = jobs s ∧ notifications s' = notifications s
  ∧ ∀ i,
      (messages s !! i = None → messages s' !! i = None)
      ∧ ∀ m, messages s !! i = Some m →
          ∃ m', messages s' !! i = Some m'
            ∧ (Message.conversationId m = Some cid → Message.recipient m = _id me →
               Message.readAt m = None →
               Message.readAt m' = Some now ∧ Message.updatedAt m' = stamp)
            ∧ (Message.conversationId m ≠ Some cid ∨ Message.recipient m ≠ _id me
               ∨ Message.readAt m ≠ None → m' = m)
            ∧ Message.sender m' = Message.sender m
            ∧ Message.recipient m' = Message.recipient m
            ∧ Message.content m' = Message.content m
            ∧ Message.type m' = Message.type m
            ∧ Message.fileUrl m' = Message.fileUrl m
            ∧ Message.fileName m' = Message.fileName m
            ∧ Message.fileSize m' = Message.fileSize m
            ∧ Message.conversationId m' = Message.conversationId m
            ∧ Message.createdAt m' = Message.createdAt m.

(** Two stored messages, both unread: Alice's "hi" to Bob, and a note
    Bob addressed to himself. *)
Definition hiToBob : Message.t :=
  Message.mk (_id alice) (_id bob) "hi" Message.text None None None None
    (Some (conversationId (_id alice) (_id bob))) 30 30.

Definition noteToSelf : Message.t :=
  Message.mk (_id bob) (_id bob) "note to self" Message.text None None None None
    (Some (conversationId (_id bob) (_id bob))) 31 31.

Definition mailbox : Store :=
  set_messages (λ _, {[ id1 := hiToBob; id2 := noteToSelf ]}) twoAccounts.

(** ** The other routes *)

(** A response whose JSON body carries data besides [success] and
    [message]: the response, and the data when there is any. *)
Definition HandlerOf (A : Type) : Type := Store → (Response * option A) * Store.

Definition refuse {A} (code : nat) (msg : string) : Response * option A :=
  (fail code msg, None).

Definition answer {A} (code : nat) (msg : string) (a : A) : Response * option A :=
  (ok code msg NoPayload, Some a).

Definition tryCatchOf {A} (msg : string) (body : Action (Response * option A)) :
    HandlerOf A := λ s,
  match body s with
  | (Return r, s') => (r, s')
  | (Throw, s') => (refuse 500 msg, s')
  end.

(** *** routes/connections.js, continued *)

(** [Connection.findOneAndUpdate(filter, update)]: the first document
    the filter selects, if any, is updated; no save hook runs. *)
Definition Connection_findOneAndUpdate (q : Connection.t → bool)
    (update : Connection.t → Connection.t) : Action () :=
  found ← Connection_findOne q;
  match found with
  | Some d => modify (set_connections (alter update d.1))
  | None => mret ()
  end.

(** [router.delete('/:userId')] *)
Definition removeConnection (me : Auth) (userId : string) : Handler :=
  tryCatch "Error removing connection" (
    other ← cast userId;
    User_findByIdAndUpdate (_id me) (User.set_connections (pull other));;
    User_findByIdAndUpdate other (User.set_connections (pull (_id me)));;
    Connection_findOneAndUpdate
      (λ c, betweenPair (_id me) other c
            && bool_decide (Connection.status c = Connection.accepted))
      (Connection.set_status Connection.declined);;
    mret (ok 200 "Connection removed successfully" NoPayload)).

(** [router.get('/mutual/:userId')]: the accounts found, and [count]. *)
Definition getMutualConnections (me : Auth) (userId : string) :
    HandlerOf (list (ObjectId * User.t) * nat) :=
  tryCatchOf "Error fetching mutual connections" (
    currentUser ← User_findById (_id me);
    other ← cast userId;
    targetUser ← User_findById other;
    match targetUser with
    | None => mret (refuse 404 "User not found")
    | Some targetUser =>
      match currentUser with
      | None => throw
      | Some currentUser =>
        let ids :=
          List.filter (λ id, bool_decide (id ∈ User.connections targetUser))
            (User.connections currentUser) in
        mutualConnections ← gets (λ s,
          List.filter (λ d, bool_decide (d.1 ∈ ids)) (map_to_list (users s)));
        mret (answer 200 "" (mutualConnections, length mutualConnections))
      end
    end).

(** *** routes/posts.js, continued *)

(** [router.delete('/:id')] *)
Definition deletePost (me : Auth) (id : string) : Handler :=
  tryCatch "Error deleting post" (
    pid ← cast id;
    post ← Post_findById pid;
    match post with
    | None => mret (fail 404 "Post not found")
    | Some post =>
      if bool_decide (Post.author post ≠ _id me) && negb (isAdmin me)
      then mret (fail 403 "Not authorized to delete this post")
      else
        modify (set_posts (delete pid));;
        mret (ok 200 "Post deleted successfully" NoPayload)
    end).

(** The posts a query selects, newest first. *)
Definition newestPosts (q : Post.t → bool) (s : Store) : list (ObjectId * Post.t) :=
  merge_sort (newestFirst Post.createdAt)
    (List.filter (λ d, q d.2) (map_to_list (posts s))).

(** The filter [{ hashtags: tag, visibility: 'public' }]. *)
Definition hashtagQuery (tag : string) (p : Post.t) : bool :=
  bool_decide (tag ∈ Post.hashtags p)
  && bool_decide (Post.visibility p = Post.public).

(** [router.get('/hashtag/:tag')]: the page, and the [hashtag] field. *)
Definition getPostsByHashtag (me : Auth) (tag : string) (page limit : positive) :
    HandlerOf string :=
  tryCatchOf "Error searching posts" (
    let tag := Js.toLowerCase tag in
    posts ← gets (λ s, paginate page limit (newestPosts (hashtagQuery tag) s));
    total ← Post_countDocuments (hashtagQuery tag);
    mret (ok 200 "" (PostPage posts (totalPages total limit) page), Some tag)).

(** *** routes/users.js *)



(** [router.get('/:id/posts')] *)
Definition getUserPosts (me : Auth) (id : string) (page limit : positive) : Handler :=
  tryCatch "Error fetching user posts" (
    author ← cast id;
    let q := λ p, bool_decide (Post.author p = author) in
    posts ← gets (λ s, paginate page limit (newestPosts q s));
    total ← Post_countDocuments q;
    mret (ok 200 "" (PostPage posts (totalPages total limit) page))).


(** *** routes/jobs.js, continued *)

(** [$inc: { views: 1 }] *)
Definition incViews (j : Job.t) : Job.t :=
  Job.mk (Job.title j) (Job.company j) (Job.poster j) (Job.applications j)
    (Job.isActive j) (S (Job.views j)).

(** [job.applications.some(app => app.applicant._id.toString() === me)]
    on the populated applications: an applicant without account
    document is populated as [null], and reading its [_id] throws
    ([None]); [some] stops at the first match. *)
Fixpoint someApplied (me : ObjectId) (accounts : gmap ObjectId User.t)
    (apps : list Job.Application) : option bool :=
  match apps with
  | [] => Some false
  | app :: rest =>
      match accounts !! Job.applicant app with
      | None => None
      | Some _ =>
          if bool_decide (Job.applicant app = me) then Some true
          else someApplied me accounts rest
      end
  end.

(** [router.get('/:id')]: the job as it was read, and [hasApplied]. *)
Definition getJob (me : Auth) (id : string) : HandlerOf (Job.t * bool) :=
  tryCatchOf "Error fetching job" (
    jid ← cast id;
    job ← Job_findById jid;
    match job with
    | None => mret (refuse 404 "Job not found")
    | Some job =>
      poster ← User_findById (Job.poster job);
      match poster with
      | None => throw
      | Some _ =>
        (if bool_decide (Job.poster job ≠ _id me)
         then modify (set_jobs (alter incViews jid))
         else mret ());;
        accounts ← gets users;
        match someApplied (_id me) accounts (Job.applications job) with
        | None => throw
        | Some hasApplied => mret (answer 200 "" (job, hasApplied))
        end
      end
    end).

(** [router.get('/:id/applications')]: [applications] and [jobTitle]. *)
Definition getJobApplications (me : Auth) (id : string) :
    HandlerOf (list Job.Application * string) :=
  tryCatchOf "Error fetching applications" (
    jid ← cast id;
    job ← Job_findById jid;
    match job with
    | None => mret (refuse 404 "Job not found")
    | Some job =>
      if bool_decide (Job.poster job ≠ _id me)
      then mret (refuse 403 "Not authorized to view applications")
      else mret (answer 200 "" (Job.applications job, Job.title job))
    end).

(** [router.delete('/:id')] *)
Definition deleteJob (me : Auth) (id : string) : Handler :=
  tryCatch "Error deleting job" (
    jid ← cast id;
    job ← Job_findById jid;
    match job with
    | None => mret (fail 404 "Job not found")
    | Some job =>
      if bool_decide (Job.poster job ≠ _id me) && negb (isAdmin me)
      then mret (fail 403 "Not authorized to delete this job")
      else
        modify (set_jobs (delete jid));;
        mret (ok 200 "Job deleted successfully" NoPayload)
    end).

(** The response of a handler, without the data of its body. *)
Definition responseOnly {A} (h : HandlerOf A) : Handler := λ s,
  let '((r, _), s') := h s in (r, s').

(** The job router, in registration order.  The request body and the
    id of the notification an application creates are not part of
    [Request], and five handlers (create, list with filters, application
    status, own applications, update) are not modelled: the router takes
    them as arguments. *)
Definition jobRouter (coverLetter resumeUrl : option string) (nid : ObjectId)
    (createJob listJobs updateApplicationStatus myApplications updateJob :
       Request → Params → Handler) : list Route :=
  [ (POST, "/", createJob);
    (GET, "/", listJobs);
    (GET, "/:id", λ req ps, responseOnly (getJob (user req) (param "id" ps)));
    (POST, "/:id/apply", λ req ps,
       applyToJob (user req) (param "id" ps) coverLetter resumeUrl (time req) nid);
    (GET, "/:id/applications", λ req ps,
       responseOnly (getJobApplications (user req) (param "id" ps)));
    (PUT, "/:jobId/applications/:applicationId", updateApplicationStatus);
    (GET, "/my/applications", myApplications);
    (PUT, "/:id", updateJob);
    (DELETE, "/:id", λ req ps, deleteJob (user req) (param "id" ps)) ].

(** *** routes/messages.js, continued *)

(** The filter [{ conversationId, $or: [{ sender }, { recipient }] }]. *)
Definition ownIn (me : Auth) (cid : string) (m : Message.t) : Prop :=
  Message.conversationId m = Some cid
  ∧ (Message.sender m = _id me ∨ Message.recipient m = _id me).

Global Instance ownIn_dec me cid m : Decision (ownIn me cid m).
Proof. unfold ownIn. apply _. Defined.

(** [router.delete('/conversation/:conversationId')] *)
Definition deleteConversation (me : Auth) (conversationId : string) : Handler :=
  tryCatch "Error deleting conversation" (
    deletedCount ← gets (λ s,
      size (filter (λ d, ownIn me conversationId d.2) (messages s)));
    modify (set_messages (filter (λ d, ¬ ownIn me conversationId d.2)));;
    mret (ok 200 ("Deleted " +:+ pretty deletedCount +:+ " messages") NoPayload)).

(** *** server.js: the socket registry *)

Module Realtime.

(** [activeUsers], a [Map] from user id to socket id, in insertion
    order. *)
Definition Registry := list (string * string).

(** [Map.prototype.set]: an existing key keeps its place. *)
Fixpoint set (userId socketId : string) (m : Registry) : Registry :=
  match m with
  | [] => [(userId, socketId)]
  | (k, v) :: m' =>
      if bool_decide (k = userId) then (k, socketId) :: m'
      else (k, v) :: set userId socketId m'
  end.





End Realtime.

(** The post of [onePost], as stored. *)
Definition helloPost : Post.t :=
  Post.mk (_id alice) "Hello #test" Post.text [] None ["test"] [] [] [] []
    Post.public false 0 10.

(** * Properties *)

Example extractHashtags_samples :
  extractHashtags "a #B_1, ##c #" = ["b_1"; "c"]
  ∧ extractHashtags "no tags" = []
  ∧ segments "/clear-all" = ["clear-all"]
  ∧ segments "/:id/read" = [":id"; "read"]
  ∧ castObjectId "clear-all" = None
  ∧ castObjectId "64B0C0FFEE0123456789abcd" = Some "64b0c0ffee0123456789abcd"
  ∧ Js.trim "  hi there  " = "hi there"
  ∧ conversationId "b" "a" = "a_b".
Proof. repeat split; vm_compute; reflexivity. Qed.

Lemma conversationId_cases a b :
  conversationId a b = if String.ltb b a then b +:+ "_" +:+ a else a +:+ "_" +:+ b.
Proof.
  unfold conversationId, Js.sort; simpl.
  destruct (String.ltb b a); reflexivity.
Qed.

Lemma ltb_asym a b : String.ltb a b = true → String.ltb b a = false.
Proof.
  unfold String.ltb. rewrite (String.compare_antisym b a).
  destruct (String.compare a b); simpl; congruence.
Qed.

Lemma ltb_total a b : String.ltb a b = false → String.ltb b a = false → a = b.
Proof.
  unfold String.ltb. rewrite (String.compare_antisym b a).
  destruct (String.compare a b) eqn:E; simpl; try congruence.
  intros _ _. by apply String.compare_eq_iff.
Qed.

Lemma conversationId_comm a b : conversationId a b = conversationId b a.
Proof.
  rewrite !conversationId_cases.
  destruct (String.ltb b a) eqn:Hba, (String.ltb a b) eqn:Hab; try reflexivity.
  - apply ltb_asym in Hba. congruence.
  - by rewrite (ltb_total a b).
Qed.

(** ** Running actions *)

Ltac run :=
  unfold tryCatch, cast, User_findById, User_findByIdAndUpdate, Connection_findById,
    Connection_findOne, Connection_save, Notification_save, Notification_findById,
    Post_findById, Post_save, Post_find, Post_countDocuments, Job_findById, Job_save,
    Message_findById, Message_save, Message_updateMany, Notification_deleteMany,
    throw, gets, modify, mbind, mret, Action_bind, Action_ret.

Lemma cast_nonempty r i : castObjectId r = Some i → Js.isEmpty r = false.
Proof. destruct r; [discriminate|reflexivity]. Qed.

Lemma find_is_Some {A} (f : A → bool) (l : list A) (x : A) :
  x ∈ l → f x = true → is_Some (List.find f l).
Proof.
  intros Hx Hf. destruct (List.find f l) eqn:E; [by eexists|].
  apply list_elem_of_In in Hx.
  pose proof (List.find_none f l E x Hx). congruence.
Qed.

(** ** Conversation identity *)

(** A message as the send route builds it has no conversation id: the
    hook would assign one, but validation comes first and refuses it. *)
Lemma preSave_new a b c ty t :
  Message.conversationId
    (Message.preSave (Message.mk a b c ty None None None None None t t))
  = Some (conversationId a b).
Proof. reflexivity. Qed.

Lemma valid_new a b c ty t :
  Message.valid (Message.mk a b c ty None None None None None t t) = false.
Proof. unfold Message.valid. cbn. by rewrite andb_false_r. Qed.

Lemma sendMessage_writes_nothing (A : Auth) recipient content ty t mid s :
  success (sendMessage A recipient content ty t mid s).1 = false
  ∧ (sendMessage A recipient content ty t mid s).2 = s.
Proof.
  unfold sendMessage.
  destruct recipient as [r|], content as [c|]; try (by run).
  destruct (Js.isEmpty r || Js.isEmpty c); [by run|].
  run. destruct (castObjectId r) as [rid|]; [|done]. cbn [fst snd].
  destruct (users s !! rid); [|done].
  by rewrite valid_new.
Qed.

Lemma sendMessage_rejected (A : Auth) (r c : string) (rid : ObjectId) ty t mid s :
  castObjectId r = Some rid → is_Some (users s !! rid) → c ≠ "" →
  sendMessage A (Some r) (Some c) ty t mid s = (fail 500 "Error sending message", s).
Proof.
  intros Hc [u Hu] Hne.
  unfold sendMessage.
  rewrite (cast_nonempty _ _ Hc).
  destruct c as [|ch c]; [done|]. cbn [Js.isEmpty orb].
  run. rewrite Hc. cbn [fst snd]. rewrite Hu.
  by rewrite valid_new.
Qed.

Lemma getConversation_id (A : Auth) (other : string) page limit t t' s :
  ∃ msgs, (getConversation A other page limit t t' s).1
          = ok 200 "" (MessagePage msgs (conversationId (_id A) other)).
Proof. unfold getConversation. run. cbn. by eexists. Qed.

(** C2, against the code.  The conversation id is a function of the
    unordered pair of ids (the two ids sorted by code units and joined
    with an underscore), the pre-save hook would give it to a message
    that has none, and the conversation route derives it the same way;
    but no send ever saves a message under it.  The route builds the
    message without [conversationId], the schema requires that field,
    and validation runs before the hook: every send is refused and
    leaves the database as it was, and a well-formed send from Alice to
    Bob, or from Bob to Alice, is answered 500. *)
Theorem send_is_refused_before_the_hook :
  (∀ a b, conversationId a b = conversationId b a)
  ∧ (∀ a b, conversationId a b
            = if String.ltb b a then b +:+ "_" +:+ a else a +:+ "_" +:+ b)
  ∧ (∀ a b c ty t,
       let m := Message.mk a b c ty None None None None None t t in
       Message.conversationId (Message.preSave m) = Some (conversationId a b)
       ∧ Message.valid m = false)
  ∧ (∀ A other page limit t t' s,
       ∃ msgs, payload (getConversation A other page limit t t' s).1
               = MessagePage msgs (conversationId (_id A) other))
  ∧ (∀ A recipient content ty t mid s,
       success (sendMessage A recipient content ty t mid s).1 = false
       ∧ (sendMessage A recipient content ty t mid s).2 = s)
  ∧ sendMessage alice (Some (_id bob)) (Some "hi") None 1 id1 twoAccounts
    = (fail 500 "Error sending message", twoAccounts)
  ∧ sendMessage bob (Some (_id alice)) (Some "yo") None 2 id2 twoAccounts
    = (fail 500 "Error sending message", twoAccounts).
Proof.
  split; [apply conversationId_comm|].
  split; [apply conversationId_cases|].
  split; [intros; split; [apply preSave_new|apply valid_new]|].
  split.
  { intros. destruct (getConversation_id A other page limit t t' s) as [msgs ->].
    by eexists. }
  split; [apply sendMessage_writes_nothing|].
  split.
  - apply (sendMessage_rejected alice _ _ (_id bob)); [reflexivity| |discriminate].
    vm_compute. by eexists.
  - apply (sendMessage_rejected bob _ _ (_id alice)); [reflexivity| |discriminate].
    vm_compute. by eexists.
Qed.

(** ** Connection requests *)

Lemma addToSet_elem x l : x ∈ addToSet x l.
Proof. unfold addToSet. case_bool_decide; set_solver. Qed.

Lemma addToSet_keeps x y l : y ∈ l → y ∈ addToSet x l.
Proof. unfold addToSet. case_bool_decide; set_solver. Qed.

Lemma addToSet_NoDup x l : NoDup l → NoDup (addToSet x l).
Proof.
  unfold addToSet. case_bool_decide; [done|]. intros Hl.
  apply NoDup_app. split_and!; [done| |apply NoDup_singleton].
  intros y Hy ->%list_elem_of_singleton. done.
Qed.

(** The store an accepted request leaves behind. *)
Lemma processRequest_accept (me : Auth) (id : string) (cid : ObjectId)
    (c : Connection.t) (now : Date) (nid : ObjectId) (s : Store) :
  castObjectId id = Some cid → connections s !! cid = Some c →
  Connection.recipient c = _id me → Connection.status c = Connection.pending →
  processRequest me id "accept" now nid s
  = (ok 200 "Connection request accepted" NoPayload,
     mkStore
       (alter (User.set_connections (addToSet (Connection.requester c)))
          (Connection.recipient c)
          (alter (User.set_connections (addToSet (Connection.recipient c)))
             (Connection.requester c) (users s)))
       (<[cid := Connection.preSave now (Connection.set_status Connection.accepted c)]>
          (connections s))
       (posts s) (jobs s) (messages s)
       (<[nid := connectionAcceptedNotice me (Connection.requester c) now]>
          (notifications s))).
Proof.
  intros Hid Hc Hrec Hst. unfold processRequest.
  rewrite bool_decide_eq_true_2 by set_solver. cbn [negb].
  run. rewrite Hid. cbn [fst snd]. rewrite Hc.
  rewrite (bool_decide_eq_false_2 (Connection.recipient c ≠ _id me))
    by (intros H; by apply H).
  rewrite (bool_decide_eq_false_2 (Connection.status c ≠ Connection.pending))
    by (intros H; by apply H).
  rewrite (bool_decide_eq_true_2 ("accept" = "accept")) by done.
  cbn [andb]. reflexivity.
Qed.

Lemma preSave_status now c :
  Connection.status (Connection.preSave now c) = Connection.status c.
Proof. unfold Connection.preSave. by destruct (_ && _). Qed.

(** After the two [$addToSet] updates, an account that was there before
    is still there, has kept every connection it had, has gained no
    duplicate, and holds the other participant if it is one of the two. *)
Lemma accept_users (a b k : ObjectId) (m : gmap ObjectId User.t) (u : User.t) :
  m !! k = Some u →
  ∃ u', alter (User.set_connections (addToSet a)) b
          (alter (User.set_connections (addToSet b)) a m) !! k = Some u'
      ∧ (k = a → b ∈ User.connections u')
      ∧ (k = b → a ∈ User.connections u')
      ∧ (∀ x, x ∈ User.connections u → x ∈ User.connections u')
      ∧ (NoDup (User.connections u) → NoDup (User.connections u')).
Proof.
  intros Hk. rewrite !lookup_alter.
  destruct (decide (b = k)) as [->|Hb], (decide (a = k)) as [->|Ha];
    rewrite Hk; cbn; eexists; (split; [reflexivity|]); cbn;
    split_and!; intros; subst;
    eauto using addToSet_elem, addToSet_keeps, addToSet_NoDup; done.
Qed.

(** C1.  When the recipient of a pending request accepts it, the request
    is stored as accepted, and every participant that has an account
    document ends up with the other participant's id among its
    connections; no account loses a connection, and a connection array
    without duplicates stays without duplicates. *)
Theorem accept_connects_both_ways (me : Auth) (id : string) (cid : ObjectId)
    (c : Connection.t) (now : Date) (nid : ObjectId) (s : Store) :
  castObjectId id = Some cid → connections s !! cid = Some c →
  Connection.status c = Connection.pending → Connection.recipient c = _id me →
  let r := processRequest me id "accept" now nid s in
  r.1 = ok 200 "Connection request accepted" NoPayload
  ∧ Connection.status <$> connections r.2 !! cid = Some Connection.accepted
  ∧ (∀ a, users s !! Connection.requester c = Some a →
       ∃ a', users r.2 !! Connection.requester c = Some a'
           ∧ Connection.recipient c ∈ User.connections a')
  ∧ (∀ b, users s !! Connection.recipient c = Some b →
       ∃ b', users r.2 !! Connection.recipient c = Some b'
           ∧ Connection.requester c ∈ User.connections b')
  ∧ (∀ k u, users s !! k = Some u →
       ∃ u', users r.2 !! k = Some u'
           ∧ (∀ x, x ∈ User.connections u → x ∈ User.connections u')
           ∧ (NoDup (User.connections u) → NoDup (User.connections u'))).
Proof.
  intros Hid Hc Hst Hrec r. subst r.
  rewrite (processRequest_accept me id cid c now nid s Hid Hc Hrec Hst).
  cbn [fst snd users connections].
  split; [reflexivity|]. split.
  { rewrite lookup_insert_eq. cbn. by rewrite preSave_status. }
  split_and!.
  - intros a Ha.
    destruct (accept_users (Connection.requester c) (Connection.recipient c) _ _ _ Ha)
      as (a' & -> & H1 & _). eauto.
  - intros b Hb.
    destruct (accept_users (Connection.requester c) (Connection.recipient c) _ _ _ Hb)
      as (b' & -> & _ & H2 & _). eauto.
  - intros k u Hk.
    destruct (accept_users (Connection.requester c) (Connection.recipient c) _ _ _ Hk)
      as (u' & -> & _ & _ & H3 & H4). eauto.
Qed.

Lemma accept_connects_both_ways_witness :
  (processRequest bob id1 "accept" 5 id2 pendingStore).1
  = ok 200 "Connection request accepted" NoPayload.
Proof.
  refine (proj1 (accept_connects_both_ways bob id1 id1
    (Connection.mk (_id alice) (_id bob) Connection.pending "Let's connect" None 0)
    5 id2 pendingStore _ _ _ _)); vm_compute; reflexivity.
Defined.

Example accept_sample :
  User.connections <$> users acceptedStore !! _id alice = Some [_id bob]
  ∧ User.connections <$> users acceptedStore !! _id bob = Some [_id alice]
  ∧ Connection.status <$> connections acceptedStore !! id1 = Some Connection.accepted.
Proof. vm_compute. repeat split. Qed.

Lemma betweenPair_spec (a b : ObjectId) (c : Connection.t) :
  (Connection.requester c = a ∧ Connection.recipient c = b)
  ∨ (Connection.requester c = b ∧ Connection.recipient c = a) →
  betweenPair a b c = true.
Proof.
  unfold betweenPair. intros [[Ha Hb]|[Ha Hb]]; apply orb_true_iff; [left|right];
    apply andb_true_iff; split; by apply bool_decide_eq_true_2.
Qed.

(** C4.  A request from A to an account B is refused with status 400,
    and the database is left as it was (no request and no notification is
    written), as soon as some request between the two exists, whichever of
    them sent it and whatever its status; for two distinct accounts the
    refusal is the conflict message. *)
Theorem existing_request_is_conflict (A : Auth) (B : ObjectId)
    (message : option string) (now : Date) (cid nid : ObjectId) (s : Store)
    (i : ObjectId) (c : Connection.t) :
  castObjectId B = Some B → is_Some (users s !! B) →
  connections s !! i = Some c →
  (Connection.requester c = _id A ∧ Connection.recipient c = B)
  ∨ (Connection.requester c = B ∧ Connection.recipient c = _id A) →
  let r := sendRequest A (Some B) message now cid nid s in
  status r.1 = 400%nat ∧ success r.1 = false ∧ r.2 = s
  ∧ (B ≠ _id A →
     r.1 = fail 400 "Connection request already exists or you are already connected").
Proof.
  intros HB [u Hu] Hc Hpair r. subst r.
  unfold sendRequest. rewrite (cast_nonempty _ _ HB).
  case_bool_decide as Hself.
  { run. cbn. split_and!; try reflexivity. intros Hne. by destruct Hne. }
  run. rewrite HB. cbn [fst snd]. rewrite Hu.
  destruct (find_is_Some (λ d, betweenPair (_id A) B d.2)
              (map_to_list (connections s)) (i, c)) as [d ->].
  { by apply elem_of_map_to_list. }
  { by apply betweenPair_spec. }
  cbn. by split_and!.
Qed.

Lemma existing_request_is_conflict_witness :
  (sendRequest bob (Some (_id alice)) None 7 id3 id4 acceptedStore).2 = acceptedStore.
Proof.
  refine (proj1 (proj2 (proj2 (existing_request_is_conflict bob (_id alice) None 7 id3 id4
    acceptedStore id1
    (Connection.mk (_id alice) (_id bob) Connection.accepted "Let's connect" (Some 5) 0)
    _ _ _ _)))).
  - vm_compute; reflexivity.
  - vm_compute. by eexists.
  - vm_compute; reflexivity.
  - right. split; reflexivity.
Defined.

(** C8, as the code has it.  The handler checks the status itself: a
    request that is not pending any more (accepted, declined or blocked)
    is refused with "Connection request already processed", for accept
    and for decline, and nothing is written. *)
Theorem processed_request_is_refused (me : Auth) (id action : string)
    (cid : ObjectId) (c : Connection.t) (now : Date) (nid : ObjectId) (s : Store) :
  action ∈ ["accept"; "decline"] →
  castObjectId id = Some cid → connections s !! cid = Some c →
  Connection.recipient c = _id me → Connection.status c ≠ Connection.pending →
  processRequest me id action now nid s
  = (fail 400 "Connection request already processed", s).
Proof.
  intros Hact Hid Hc Hrec Hst. unfold processRequest.
  rewrite bool_decide_eq_true_2 by done. cbn [negb].
  run. rewrite Hid. cbn [fst snd]. rewrite Hc.
  rewrite (bool_decide_eq_false_2 (Connection.recipient c ≠ _id me))
    by (intros H; by apply H).
  by rewrite (bool_decide_eq_true_2 (Connection.status c ≠ Connection.pending)).
Qed.

Lemma processed_request_is_refused_witness :
  processRequest bob id1 "decline" 6 id3 acceptedStore
  = (fail 400 "Connection request already processed", acceptedStore).
Proof.
  refine (processed_request_is_refused bob id1 "decline" id1
    (Connection.mk (_id alice) (_id bob) Connection.accepted "Let's connect" (Some 5) 0)
    6 id3 acceptedStore _ _ _ _ _).
  - apply list_elem_of_further, list_elem_of_here.
  - vm_compute; reflexivity.
  - vm_compute; reflexivity.
  - reflexivity.
  - discriminate.
Defined.

(** C8, as stated, fails: Bob accepts Alice's request, then accepts it a
    second time; the second call is stopped by the status check of the
    handler and changes nothing. *)
Lemma accept_twice_hits_status_guard :
  Connection.status <$> connections acceptedStore !! id1 = Some Connection.accepted
  ∧ processRequest bob id1 "accept" 6 id3 acceptedStore
    = (fail 400 "Connection request already processed", acceptedStore).
Proof. split; vm_compute; reflexivity. Qed.

(** ** Posts: engagement score *)

Lemma preSave_scoreOk p : scoreOk (Post.preSave p).
Proof. unfold scoreOk, Post.preSave. cbn. lia. Qed.

Lemma postOp_effect (me : Auth) (now : Date) (nid : ObjectId) (op : PostOp) (s : Store) :
  let r := runPostOp me now nid op s in
  (success r.1 = false ∧ posts r.2 = posts s)
  ∨ (success r.1 = true
     ∧ ∃ i p, targetOf op = Some i ∧ posts r.2 = <[i := Post.preSave p]> (posts s)).
Proof.
  destruct op as [content ty images link tags pid|id|id content|id]; cbn [runPostOp targetOf].
  - unfold createPost. destruct content as [content|]; [|left; by run].
    destruct (_ || _); [left; by run|].
    right. run. cbn [fst snd posts set_posts]. rewrite lookup_insert_eq. cbn. eauto.
  - unfold likePost. run. destruct (castObjectId id) as [pid|]; [|left; by cbn].
    cbn [fst snd]. destruct (posts s !! pid) as [p|]; [|left; by cbn].
    case_bool_decide; [right; cbn; eauto|].
    case_bool_decide; right; cbn; eauto.
  - unfold addComment. destruct content as [content|]; [|left; by run].
    destruct (_ || _); [left; by run|].
    run. destruct (castObjectId id) as [pid|]; [|left; by cbn].
    cbn [fst snd]. destruct (posts s !! pid) as [p|]; [|left; by cbn].
    cbn [posts set_posts]. rewrite lookup_insert_eq.
    case_bool_decide; right; cbn; eauto.
  - unfold sharePost. run. destruct (castObjectId id) as [pid|]; [|left; by cbn].
    cbn [fst snd]. destruct (posts s !! pid) as [p|]; [|left; by cbn].
    destruct (List.find _ _); [left; by cbn|].
    case_bool_decide; right; cbn; eauto.
Qed.

(** C3.  Every operation of the posts router that saves a post (create,
    like, unlike, comment, share) leaves in the collection only posts
    that were there unchanged before or whose stored score is
    likes + comments + 2 * shares; an operation that answers with success
    has stored its target post, with that score, and one that does not
    has stored nothing. *)
Theorem engagementScore_after_every_save
    (me : Auth) (now : Date) (nid : ObjectId) (op : PostOp) (s : Store) :
  let r := runPostOp me now nid op s in
  (∀ i p, posts r.2 !! i = Some p → posts s !! i = Some p ∨ scoreOk p)
  ∧ (success r.1 = true →
     ∃ i p, targetOf op = Some i ∧ posts r.2 !! i = Some p ∧ scoreOk p)
  ∧ (success r.1 = false → posts r.2 = posts s).
Proof.
  intros r. destruct (postOp_effect me now nid op s) as [[Hf He]|[Ht (i & p & Hi & He)]];
    fold r in Hf || fold r in Ht; fold r in He; rewrite He.
  - split_and!; [by left|congruence|done].
  - split_and!.
    + intros j q. rewrite lookup_insert. case_decide as Hj.
      * intros [= <-]. right. apply preSave_scoreOk.
      * by left.
    + intros _. exists i, (Post.preSave p). rewrite lookup_insert_eq.
      split_and!; [done|done|apply preSave_scoreOk].
    + congruence.
Qed.

Example engagementScore_sample :
  let s1 := (runPostOp bob 11 id2 (OpLike id1) onePost).2 in
  let s2 := (runPostOp bob 12 id3 (OpComment id1 (Some "nice")) s1).2 in
  let s3 := (runPostOp bob 13 id4 (OpShare id1) s2).2 in
  let s4 := (runPostOp bob 14 id2 (OpLike id1) s3).2 in
  Post.engagementScore <$> posts onePost !! id1 = Some 0%nat
  ∧ Post.engagementScore <$> posts s1 !! id1 = Some 1%nat
  ∧ Post.engagementScore <$> posts s2 !! id1 = Some 2%nat
  ∧ Post.engagementScore <$> posts s3 !! id1 = Some 4%nat
  ∧ Post.engagementScore <$> posts s4 !! id1 = Some 3%nat.
Proof. vm_compute. repeat split. Qed.

(** ** Posts: the like toggle *)

Lemma likePost_effect (me : Auth) (id : string) (pid : ObjectId) (p : Post.t)
    (now : Date) (nid : ObjectId) (s : Store) :
  castObjectId id = Some pid → posts s !! pid = Some p →
  let liked := bool_decide (_id me ∈ Post.likes p) in
  let likes' := toggleLike (_id me) (Post.likes p) in
  let r := likePost me id now nid s in
  r.1 = ok 200 (if liked then "Post unliked" else "Post liked")
          (LikeInfo (negb liked) (length likes'))
  ∧ posts r.2 = <[pid := Post.preSave (Post.set_likes likes' p)]> (posts s).
Proof.
  intros Hid Hp liked likes' r. subst liked likes' r.
  unfold likePost, toggleLike. run. rewrite Hid. cbn [fst snd]. rewrite Hp.
  case_bool_decide; [done|]. cbn [Post.author Post.set_likes].
  case_bool_decide; done.
Qed.

Lemma likePost_likes (me : Auth) (id : string) (pid : ObjectId) (l : list ObjectId)
    (now : Date) (nid : ObjectId) (s : Store) :
  castObjectId id = Some pid → likesOf pid s = Some l →
  likesOf pid (likePost me id now nid s).2 = Some (toggleLike (_id me) l).
Proof.
  unfold likesOf. intros Hid Hl.
  destruct (posts s !! pid) as [p|] eqn:Hp; [|done]. injection Hl as <-.
  destruct (likePost_effect me id pid p now nid s Hid Hp) as [_ ->].
  by rewrite lookup_insert_eq.
Qed.

Lemma filter_ne_absent (u : ObjectId) (l : list ObjectId) :
  u ∉ l → filter (λ i, i ≠ u) l = l.
Proof.
  induction l as [|x l IH]; [done|]. intros Hu.
  apply not_elem_of_cons in Hu as [Hx Hl].
  rewrite filter_cons_True by done. by rewrite IH.
Qed.



Lemma toggleLike_NoDup u l : NoDup l → NoDup (toggleLike u l).
Proof.
  unfold toggleLike. intros Hl. case_bool_decide.
  - by apply NoDup_filter.
  - apply NoDup_app. split_and!; [done| |apply NoDup_singleton].
    intros y Hy ->%list_elem_of_singleton. done.
Qed.

Lemma toggleLike_thrice u l :
  u ∉ l → toggleLike u (toggleLike u (toggleLike u l)) = l ++ [u].
Proof.
  intros Hu. unfold toggleLike at 3. rewrite bool_decide_eq_false_2 by done.
  unfold toggleLike at 2. rewrite bool_decide_eq_true_2 by set_solver.
  rewrite filter_app, filter_ne_absent by done.
  rewrite filter_cons_False by (intros H; by apply H). rewrite filter_nil, app_nil_r.
  unfold toggleLike. by rewrite bool_decide_eq_false_2.
Qed.


(** From a new post on, whoever calls the like route and however often,
    the like array never holds an id twice. *)
Lemma likes_never_duplicated (us : list ObjectId) :
  NoDup (foldl (λ l u, toggleLike u l) [] us).
Proof.
  assert (∀ l, NoDup l → NoDup (foldl (λ l u, toggleLike u l) l us)) as H.
  { induction us as [|u us IH]; [done|]. intros l Hl. cbn.
    by apply IH, toggleLike_NoDup. }
  apply H, NoDup_nil_2.
Qed.



(** ** Job applications *)

Lemma find_applicant_None (u : ObjectId) (l : list Job.Application) :
  (∀ app, app ∈ l → Job.applicant app ≠ u) →
  List.find (λ app, bool_decide (Job.applicant app = u)) l = None.
Proof.
  intros H. destruct (List.find _ l) as [app|] eqn:E; [|done].
  apply List.find_some in E as [Hin Happ].
  apply bool_decide_eq_true in Happ. apply list_elem_of_In in Hin.
  by destruct (H app Hin).
Qed.

(** C6.  Applying to an inactive job, or to a job that already holds an
    application of the caller, is refused with status 400 and writes
    nothing, so the application list is what it was; otherwise the
    route answers with success and the stored job is the old one with
    exactly one application of the caller, in state [applied], appended. *)
Theorem apply_guards_and_appends (me : Auth) (id : string) (jid : ObjectId)
    (j : Job.t) (coverLetter resumeUrl : option string) (now : Date)
    (nid : ObjectId) (s : Store) :
  castObjectId id = Some jid → jobs s !! jid = Some j →
  let r := applyToJob me id coverLetter resumeUrl now nid s in
  (Job.isActive j = false →
     r = (fail 400 "Job posting is no longer active", s))
  ∧ (Job.isActive j = true →
     (∃ app, app ∈ Job.applications j ∧ Job.applicant app = _id me) →
     r = (fail 400 "You have already applied to this job", s))
  ∧ (Job.isActive j = true →
     (∀ app, app ∈ Job.applications j → Job.applicant app ≠ _id me) →
     r.1 = ok 200 "Application submitted successfully" NoPayload
     ∧ jobs r.2
       = <[jid := Job.set_applications
                    (Job.applications j ++
                       [Job.mkApplication (_id me) coverLetter resumeUrl Job.applied now])
                    j]> (jobs s)).
Proof.
  intros Hid Hj r. subst r. unfold applyToJob. run.
  rewrite Hid. cbn [fst snd]. rewrite Hj.
  split_and!.
  - intros ->. reflexivity.
  - intros -> (app & Hin & Happ). cbn [negb].
    destruct (find_is_Some (λ a, bool_decide (Job.applicant a = _id me))
                (Job.applications j) app Hin) as [a ->]; [|done].
    by apply bool_decide_eq_true_2.
  - intros -> Hnone. cbn [negb]. rewrite find_applicant_None by done.
    by cbn.
Qed.

Lemma apply_guards_and_appends_witness :
  applyToJob bob id1 (Some "Dear Alice") None 20 id2 closedJobStore
  = (fail 400 "Job posting is no longer active", closedJobStore).
Proof.
  refine (proj1 (apply_guards_and_appends bob id1 id1 closedJob (Some "Dear Alice")
                   None 20 id2 closedJobStore _ _) _).
  - vm_compute; reflexivity.
  - vm_compute; reflexivity.
  - reflexivity.
Defined.

Example apply_sample :
  let r1 := applyToJob bob id1 None None 20 id2 openJobStore in
  let r2 := applyToJob bob id1 None None 21 id3 r1.2 in
  status r1.1 = 200%nat
  ∧ (length ∘ Job.applications) <$> jobs r1.2 !! id1 = Some 1%nat
  ∧ r2 = (fail 400 "You have already applied to this job", r1.2).
Proof. vm_compute. repeat split. Qed.

(** ** The feed *)

Global Instance feedOrder_total : Total feedOrder.
Proof. intros a b. unfold feedOrder. lia. Qed.

Global Instance feedOrder_trans : Transitive feedOrder.
Proof. intros a b c. unfold feedOrder. lia. Qed.

Lemma elem_of_filter_map_to_list {A} (f : A → bool) (m : gmap ObjectId A) i x :
  (i, x) ∈ List.filter (λ d, f d.2) (map_to_list m) ↔ m !! i = Some x ∧ f x = true.
Proof.
  rewrite list_elem_of_In, List.filter_In, <- list_elem_of_In, elem_of_map_to_list.
  done.
Qed.

Lemma feedListing_elem ids s i p :
  (i, p) ∈ feedListing ids s ↔ posts s !! i = Some p ∧ feedQuery ids p = true.
Proof.
  unfold feedListing. rewrite merge_sort_Permutation.
  apply elem_of_filter_map_to_list.
Qed.

Lemma feedListing_NoDup ids s : NoDup (feedListing ids s).
Proof.
  unfold feedListing. rewrite merge_sort_Permutation.
  apply NoDup_ListNoDup, List.NoDup_filter, NoDup_ListNoDup, NoDup_map_to_list.
Qed.

Lemma feedListing_sorted ids s : StronglySorted feedOrder (feedListing ids s).
Proof. apply StronglySorted_merge_sort; apply _. Qed.

Lemma feedListing_length ids s :
  length (feedListing ids s)
  = length (List.filter (λ d, feedQuery ids d.2) (map_to_list (posts s))).
Proof. unfold feedListing. by rewrite merge_sort_Permutation. Qed.

Lemma feedQuery_spec (me : ObjectId) (conns following : list ObjectId) (p : Post.t) :
  feedQuery (conns ++ following ++ [me]) p = true
  ↔ (Post.author p = me ∨ Post.author p ∈ conns ∨ Post.author p ∈ following
     ∨ (10 ≤ Post.engagementScore p)%nat)
    ∧ (Post.visibility p = Post.public ∨ Post.visibility p = Post.connections).
Proof.
  unfold feedQuery.
  rewrite andb_true_iff, orb_true_iff, !bool_decide_eq_true, Nat.leb_le.
  rewrite !elem_of_app, !elem_of_cons.
  pose proof (not_elem_of_nil (Post.visibility p)).
  pose proof (not_elem_of_nil (Post.author p)). tauto.
Qed.

Lemma getFeed_page (me : Auth) (u : User.t) (page limit : positive) (s : Store) :
  users s !! _id me = Some u →
  let feed := feedListing (User.connections u ++ User.following u ++ [_id me]) s in
  getFeed me page limit s
  = (ok 200 "" (PostPage (paginate page limit feed)
                  (totalPages (length feed) limit) page), s).
Proof.
  intros Hu feed. subst feed. unfold getFeed. run. cbn [fst snd]. rewrite Hu.
  cbn. by rewrite feedListing_length.
Qed.

(** The newest post heads the listing, so it is on every first page. *)
Lemma newest_on_first_page ids s i p limit :
  (i, p) ∈ feedListing ids s →
  (∀ j q, (j, q) ∈ feedListing ids s → j ≠ i → Post.createdAt q < Post.createdAt p) →
  (i, p) ∈ paginate 1 limit (feedListing ids s).
Proof.
  intros Hin Hnew. pose proof (feedListing_sorted ids s) as Hs.
  assert (∀ q, (i, q) ∈ feedListing ids s → q = p) as Hfun.
  { intros q [Hq _]%feedListing_elem. apply feedListing_elem in Hin as [Hp _].
    congruence. }
  unfold paginate.
  replace ((Pos.to_nat 1 - 1) * Pos.to_nat limit)%nat with 0%nat by lia. cbn [drop].
  destruct (feedListing ids s) as [|[j q] L]; [by apply elem_of_nil in Hin|].
  destruct (Pos.to_nat limit) as [|n] eqn:E; [lia|]. cbn [take].
  destruct (decide (j = i)) as [->|Hne].
  { rewrite (Hfun q) by apply list_elem_of_here. apply list_elem_of_here. }
  exfalso. apply elem_of_cons in Hin as [Heq|Hin]; [congruence|].
  apply StronglySorted_inv in Hs as [_ Hall].
  rewrite Forall_forall in Hall. specialize (Hall _ Hin).
  specialize (Hnew j q (list_elem_of_here _ _) Hne).
  unfold feedOrder in Hall. cbn in Hall. lia.
Qed.

Lemma createPost_hello (me : Auth) (now : Date) (pid : ObjectId) (s : Store) :
  let P := Post.mk (_id me) "Hello #test" Post.text [] None ["test"] [] [] [] []
             Post.public false 0 now in
  createPost me (Some "Hello #test") (Some Post.text) None None
    (Some (extractHashtags "Hello #test")) now pid s
  = (ok 201 "Post created successfully" (PostCreated (Some P)),
     set_posts <[pid := P]> s).
Proof.
  intros P. unfold createPost.
  change (Js.isEmpty "Hello #test" || Nat.eqb (String.length (Js.trim "Hello #test")) 0)
    with false.
  cbn match. run. cbn [fst snd posts set_posts]. rewrite lookup_insert_eq.
  reflexivity.
Qed.

(** C7.  The feed of an account is the listing of exactly the posts
    written by the account, by one of its connections or by an account it
    follows, or with a stored score of at least 10, that are public or
    visible to connections; each such post is listed once, newest first
    and by descending score among posts of one creation time, and the
    route serves the listing page by page.  After an account has
    published "Hello #test", that post is in its feed, on the first page
    if the post is newer than every other one; and the hashtags extracted
    from that text are ["test"]. *)
Theorem feed_is_ranked_candidates (me : Auth) (u : User.t) (page limit : positive)
    (s : Store) :
  users s !! _id me = Some u →
  let ids := User.connections u ++ User.following u ++ [_id me] in
  let feed := feedListing ids s in
  getFeed me page limit s
  = (ok 200 "" (PostPage (paginate page limit feed)
                  (totalPages (length feed) limit) page), s)
  ∧ (∀ i p, (i, p) ∈ feed ↔
       posts s !! i = Some p
       ∧ (Post.author p = _id me ∨ Post.author p ∈ User.connections u
          ∨ Post.author p ∈ User.following u ∨ (10 ≤ Post.engagementScore p)%nat)
       ∧ (Post.visibility p = Post.public ∨ Post.visibility p = Post.connections))
  ∧ NoDup feed
  ∧ StronglySorted feedOrder feed
  ∧ (∀ (now : Date) (pid : ObjectId),
       let created :=
         createPost me (Some "Hello #test") (Some Post.text) None None
           (Some (extractHashtags "Hello #test")) now pid s in
       ∃ P, posts created.2 !! pid = Some P
          ∧ Post.author P = _id me ∧ Post.content P = "Hello #test"
          ∧ Post.hashtags P = ["test"]
          ∧ (pid, P) ∈ feedListing ids created.2
          ∧ ((∀ j q, posts s !! j = Some q → Post.createdAt q < now) →
             ∃ served pages,
               (getFeed me 1 limit created.2).1
               = ok 200 "" (PostPage served pages 1)
               ∧ (pid, P) ∈ served))
  ∧ extractHashtags "Hello #test" = ["test"].
Proof.
  intros Hu ids feed. split_and!.
  - by apply getFeed_page.
  - intros i p. unfold feed, ids. by rewrite feedListing_elem, feedQuery_spec.
  - apply feedListing_NoDup.
  - apply feedListing_sorted.
  - intros now pid created. subst created. rewrite createPost_hello. cbn [snd].
    set (P := Post.mk _ _ _ _ _ _ _ _ _ _ _ _ _ _).
    assert ((pid, P) ∈ feedListing ids (set_posts <[pid:=P]> s)) as Hin.
    { apply feedListing_elem. cbn [posts set_posts]. rewrite lookup_insert_eq.
      split; [done|]. apply feedQuery_spec. cbn. auto. }
    exists P. cbn [posts set_posts]. rewrite lookup_insert_eq.
    split_and!; try done.
    intros Hnew.
    rewrite (getFeed_page me u 1 limit (set_posts <[pid:=P]> s)) by done.
    cbn [fst]. do 2 eexists. split; [reflexivity|].
    apply newest_on_first_page; [done|].
    intros j q [Hq _]%feedListing_elem Hj. cbn [posts set_posts] in Hq.
    rewrite lookup_insert_ne in Hq by done. cbn. eauto.
  - reflexivity.
Qed.

Lemma feed_is_ranked_candidates_witness :
  ∃ P, (id1, P) ∈ feedListing [_id alice] onePost ∧ Post.hashtags P = ["test"].
Proof.
  destruct (proj1 (proj2 (proj2 (proj2 (proj2
    (feed_is_ranked_candidates alice (account alice) 1 10 twoAccounts
       ltac:(vm_compute; reflexivity)))))) 10 id1)
    as (P & _ & _ & _ & Htags & Hin & _).
  exists P. split; [exact Hin|exact Htags].
Defined.

Example feed_sample :
  payload (getFeed alice 1 10 onePost).1
  = PostPage
      [(id1, Post.mk (_id alice) "Hello #test" Post.text [] None ["test"] [] [] [] []
               Post.public false 0 10)] 1 1
  ∧ payload (getFeed bob 1 10 onePost).1 = PostPage [] 0 1.
Proof. vm_compute. split; reflexivity. Qed.

(** ** Notifications: clear-all *)

(** The handler registered for [/clear-all] deletes the caller's
    notifications, all of them and no other, and reports how many. *)
Lemma clearAll_handler (me : Auth) (s : Store) :
  let mine := filter (λ d, Notification.recipient d.2 = _id me) (notifications s) in
  clearAll me s
  = (ok 200 ("Deleted " +:+ pretty (size mine) +:+ " notifications") NoPayload,
     set_notifications (filter (λ d, Notification.recipient d.2 ≠ _id me)) s).
Proof. reflexivity. Qed.

Lemma clearAll_handler_leaves (me : Auth) (s : Store) (i : ObjectId) (n : Notification.t) :
  notifications (clearAll me s).2 !! i = Some n
  ↔ notifications s !! i = Some n ∧ Notification.recipient n ≠ _id me.
Proof. rewrite clearAll_handler. cbn. by rewrite map_lookup_filter_Some. Qed.

(** C9, on the code.  [DELETE /clear-all] never reaches that handler:
    the router tries [DELETE /:id] first, which matches with
    [id = "clear-all"]; casting that to an ObjectId throws, and the
    request ends as a 500 with every notification still in place. *)
Theorem clear_all_is_shadowed (me : Auth) (page limit : option positive)
    (unread : option string) (now : Date) (s : Store) :
  (λ handler, handler s)
    <$> dispatch notificationRouter
          (mkRequest DELETE "/clear-all" me page limit unread now)
  = Some (fail 500 "Error deleting notification", s).
Proof. vm_compute. reflexivity. Qed.

Example clear_all_sample :
  let req := mkRequest DELETE "/clear-all" alice None None None 50 in
  Notification.title <$> notifications acceptedStore !! id2 = Some "Connection Accepted"
  ∧ Notification.recipient <$> notifications acceptedStore !! id2 = Some (_id alice)
  ∧ (λ handler, handler acceptedStore) <$> dispatch notificationRouter req
    = Some (fail 500 "Error deleting notification", acceptedStore)
  ∧ notifications (clearAll alice acceptedStore).2 = ∅.
Proof. vm_compute. repeat split. Qed.

(** ** Messages: marking as read *)

Lemma updateMany_marks (me : Auth) (cid : string) (now stamp : Date) (s : Store) :
  marksOnlyUnreadIncoming me cid now stamp s
    (set_messages
       (fmap (λ m, if unreadFor me cid m
                   then Message.set_updatedAt stamp (Message.set_readAt (Some now) m)
                   else m)) s).
Proof.
  unfold marksOnlyUnreadIncoming. cbn [users connections posts jobs notifications
    messages set_messages].
  split_and!; try reflexivity.
  intros i. rewrite lookup_fmap. split; [by intros ->|].
  intros m ->. cbn. eexists. split; [reflexivity|].
  unfold unreadFor. split_and!.
  - intros H1 H2 H3. by rewrite !bool_decide_eq_true_2.
  - intros Hn. destruct (_ && _ && _) eqn:E; [|done].
    apply andb_true_iff in E as [[E1 E2]%andb_true_iff E3].
    apply bool_decide_eq_true in E1, E2, E3. by destruct Hn as [?|[?|?]].
  - by destruct (_ && _ && _).
  - by destruct (_ && _ && _).
  - by destruct (_ && _ && _).
  - by destruct (_ && _ && _).
  - by destruct (_ && _ && _).
  - by destruct (_ && _ && _).
  - by destruct (_ && _ && _).
  - by destruct (_ && _ && _).
  - by destruct (_ && _ && _).
Qed.

(** C10, as the code has it.  Fetching the conversation with [userId],
    and marking conversation [cid] as read, touch only the messages of
    that conversation that are addressed to the caller and have no
    [readAt] yet: these get [readAt], and with it the [updatedAt] the
    schema's timestamps keep; no other field of theirs changes.  A
    message addressed to someone else (so every message the caller sent
    to another account), a message already read and a message of
    another conversation are left as they are, and so is every other
    collection. *)
Theorem reading_marks_only_unread_incoming (me : Auth) (userId cid : string)
    (page limit : positive) (now stamp : Date) (s : Store) :
  marksOnlyUnreadIncoming me (conversationId (_id me) userId) now stamp s
    (getConversation me userId page limit now stamp s).2
  ∧ marksOnlyUnreadIncoming me cid now stamp s
      (markConversationRead me cid now stamp s).2.
Proof. split; apply updateMany_marks. Qed.

(** C10, as stated, fails twice.  When Bob opens his conversation with
    Alice, her unread message gets a new [updatedAt] besides [readAt]:
    a field other than [readAt] is modified.  And when Bob opens the
    conversation with himself, the note he sent is marked as read: a
    message sent by the requester is changed. *)
Lemma reading_stamps_updatedAt_and_own_notes :
  (∃ m', messages (getConversation bob (_id alice) 1 50 40 41 mailbox).2 !! id1
         = Some m'
     ∧ messages mailbox !! id1 = Some hiToBob
     ∧ Message.readAt hiToBob = None ∧ Message.readAt m' = Some 40
     ∧ Message.updatedAt hiToBob = 30 ∧ Message.updatedAt m' = 41)
  ∧ (∃ m', messages (markConversationRead bob (conversationId (_id alice) (_id bob))
                       40 41 mailbox).2 !! id1 = Some m'
     ∧ Message.updatedAt m' ≠ Message.updatedAt hiToBob)
  ∧ (∃ m', messages (getConversation bob (_id bob) 1 50 40 41 mailbox).2 !! id2
           = Some m'
     ∧ messages mailbox !! id2 = Some noteToSelf
     ∧ Message.sender noteToSelf = _id bob
     ∧ Message.readAt noteToSelf = None ∧ Message.readAt m' = Some 40
     ∧ m' ≠ noteToSelf).
Proof.
  split_and!; eexists; split_and!; try (vm_compute; reflexivity); discriminate.
Qed.

(** For the record: called three times by an account that already likes
    the post, the route answers unlike, like, unlike. *)
Example toggle_from_liked_sample :
  let s1 := (likePost bob id1 11 id2 onePost).2 in
  let r2 := likePost bob id1 12 id3 s1 in
  let r3 := likePost bob id1 13 id4 r2.2 in
  let r4 := likePost bob id1 14 id2 r3.2 in
  likesOf id1 s1 = Some [_id bob]
  ∧ message r2.1 = "Post unliked" ∧ message r3.1 = "Post liked"
  ∧ message r4.1 = "Post unliked" ∧ likesOf id1 r4.2 = Some [].
Proof. vm_compute. repeat split. Qed.

(** ** More on connection requests *)

Ltac run' :=
  unfold tryCatchOf, Connection_findOneAndUpdate; run.

Lemma find_None_all {A} (f : A → bool) (l : list A) :
  (∀ x, x ∈ l → f x = false) → List.find f l = None.
Proof.
  intros H. destruct (List.find f l) as [x|] eqn:E; [|done].
  apply List.find_some in E as [Hin Hf]. apply list_elem_of_In in Hin.
  rewrite (H x Hin) in Hf. discriminate.
Qed.




(** X2.  The three writing routes of the connection router are all or
    nothing: when send, accept/decline or remove does not answer with
    success, whatever the reason (bad input, unknown account or request,
    not authorized, already processed, malformed id, duplicate key), the
    database is exactly what it was. *)
Theorem connection_routes_fail_cleanly (me : Auth) (userId message : option string)
    (id action other : string) (now : Date) (cid nid : ObjectId) (s : Store) :
  (success (sendRequest me userId message now cid nid s).1 = false →
   (sendRequest me userId message now cid nid s).2 = s)
  ∧ (success (processRequest me id action now nid s).1 = false →
     (processRequest me id action now nid s).2 = s)
  ∧ (success (removeConnection me other s).1 = false →
     (removeConnection me other s).2 = s).
Proof.
  split_and!.
  - unfold sendRequest. run'.
    repeat (case_match; simplify_eq/=; try done).
  - unfold processRequest. run'.
    repeat (case_match; simplify_eq/=; try done).
  - unfold removeConnection. run'.
    repeat (case_match; simplify_eq/=; try done).
Qed.

Lemma sendRequest_conflict (A : Auth) (B : ObjectId) (message : option string)
    (now : Date) (cid nid : ObjectId) (s : Store) (i : ObjectId) (c : Connection.t) :
  castObjectId B = Some B → B ≠ _id A → is_Some (users s !! B) →
  connections s !! i = Some c → betweenPair (_id A) B c = true →
  sendRequest A (Some B) message now cid nid s
  = (fail 400 "Connection request already exists or you are already connected", s).
Proof.
  intros HB Hne [u Hu] Hc Hpair. unfold sendRequest.
  rewrite (cast_nonempty _ _ HB).
  rewrite (bool_decide_eq_false_2 (B = _id A)) by done.
  run. rewrite HB. cbn [fst snd]. rewrite Hu.
  destruct (find_is_Some (λ d, betweenPair (_id A) B d.2)
              (map_to_list (connections s)) (i, c)) as [d ->]; [|done|done].
  by apply elem_of_map_to_list.
Qed.

(** X3.  Declining keeps the request, with status declined, and touches
    no account and no notification; from then on a new request between
    the two accounts is refused with the conflict message, whichever of
    the two sends it. *)
Theorem declined_request_blocks_new_ones (me other : Auth) (id : string)
    (cid : ObjectId) (c : Connection.t) (now t : Date) (nid cid' nid' : ObjectId)
    (m : option string) (s : Store) :
  castObjectId id = Some cid → connections s !! cid = Some c →
  Connection.status c = Connection.pending →
  Connection.recipient c = _id me → Connection.requester c = _id other →
  _id other ≠ _id me →
  castObjectId (_id me) = Some (_id me) → castObjectId (_id other) = Some (_id other) →
  is_Some (users s !! _id me) → is_Some (users s !! _id other) →
  let r := processRequest me id "decline" now nid s in
  let refusal :=
    fail 400 "Connection request already exists or you are already connected" in
  r = (ok 200 "Connection request declined" NoPayload,
       set_connections <[cid := Connection.set_status Connection.declined c]> s)
  ∧ sendRequest other (Some (_id me)) m t cid' nid' r.2 = (refusal, r.2)
  ∧ sendRequest me (Some (_id other)) m t cid' nid' r.2 = (refusal, r.2).
Proof.
  intros Hid Hc Hst Hrec Hreq Hne Hme Hother Hume Huother r refusal.
  assert (r = (ok 200 "Connection request declined" NoPayload,
               set_connections <[cid := Connection.set_status Connection.declined c]> s))
    as Hr.
  { subst r. unfold processRequest.
    rewrite bool_decide_eq_true_2 by (apply list_elem_of_further, list_elem_of_here).
    cbn [negb]. run. rewrite Hid. cbn [fst snd]. rewrite Hc.
    rewrite (bool_decide_eq_false_2 (Connection.recipient c ≠ _id me))
      by (intros H; by apply H).
    rewrite (bool_decide_eq_false_2 (Connection.status c ≠ Connection.pending))
      by (intros H; by apply H).
    rewrite (bool_decide_eq_false_2 ("decline" = "accept")) by discriminate.
    reflexivity. }
  split; [exact Hr|]. rewrite Hr. cbn [snd]. split.
  - eapply (sendRequest_conflict other (_id me) m t cid' nid' _ cid); try done.
    + cbn. by apply lookup_insert_eq.
    + apply betweenPair_spec. left. by cbn.
  - eapply (sendRequest_conflict me (_id other) m t cid' nid' _ cid); try done.
    + cbn. by apply lookup_insert_eq.
    + apply betweenPair_spec. right. by cbn.
Qed.

Lemma pull_absent (x : ObjectId) (l : list ObjectId) : x ∉ pull x l.
Proof. unfold pull. rewrite list_elem_of_filter. by intros [? _]. Qed.

Lemma pull_subset (x y : ObjectId) (l : list ObjectId) : y ∈ pull x l → y ∈ l.
Proof. unfold pull. rewrite list_elem_of_filter. by intros [_ ?]. Qed.

Lemma pull_keeps (x y : ObjectId) (l : list ObjectId) : y ∈ l → y ≠ x → y ∈ pull x l.
Proof. unfold pull. rewrite list_elem_of_filter. done. Qed.


(** What removing a connection writes. *)
Lemma removeConnection_effect (me : Auth) (userId : string) (o : ObjectId) (s : Store) :
  castObjectId userId = Some o →
  let users' :=
    alter (User.set_connections (pull (_id me))) o
      (alter (User.set_connections (pull o)) (_id me) (users s)) in
  let q := λ c, betweenPair (_id me) o c
                && bool_decide (Connection.status c = Connection.accepted) in
  removeConnection me userId s
  = (ok 200 "Connection removed successfully" NoPayload,
     mkStore users'
       (match List.find (λ d, q d.2) (map_to_list (connections s)) with
        | Some d => alter (Connection.set_status Connection.declined) d.1 (connections s)
        | None => connections s
        end)
       (posts s) (jobs s) (messages s) (notifications s)).
Proof.
  intros Ho. unfold removeConnection. run'. rewrite Ho. cbn [fst snd connections].
  by destruct (List.find _ _).
Qed.

(** X4.  Removing a connection always answers with success when the id
    is well formed.  Afterwards neither account lists the other, every
    other entry of every connection array is kept, no request document
    is deleted or changes its participants, at most accepted requests
    between the two change (to declined), and if there was one, one of
    them is declined now.  Posts, jobs, messages and notifications are
    untouched. *)
Theorem removeConnection_disconnects (me : Auth) (userId : string) (o : ObjectId)
    (s : Store) :
  castObjectId userId = Some o →
  let r := removeConnection me userId s in
  r.1 = ok 200 "Connection removed successfully" NoPayload
  ∧ (∀ k u, users s !! k = Some u →
       ∃ u', users r.2 !! k = Some u'
         ∧ (k = _id me → o ∉ User.connections u')
         ∧ (k = o → _id me ∉ User.connections u')
         ∧ (∀ x, x ∈ User.connections u' → x ∈ User.connections u)
         ∧ (∀ x, x ∈ User.connections u → x ≠ _id me → x ≠ o →
                 x ∈ User.connections u'))
  ∧ (∀ i c, connections s !! i = Some c →
       ∃ c', connections r.2 !! i = Some c'
         ∧ Connection.requester c' = Connection.requester c
         ∧ Connection.recipient c' = Connection.recipient c
         ∧ (c' = c
            ∨ (betweenPair (_id me) o c = true
               ∧ Connection.status c = Connection.accepted
               ∧ Connection.status c' = Connection.declined)))
  ∧ ((∃ i c, connections s !! i = Some c ∧ betweenPair (_id me) o c = true
             ∧ Connection.status c = Connection.accepted) →
     ∃ i c, connections s !! i = Some c ∧ betweenPair (_id me) o c = true
            ∧ Connection.status c = Connection.accepted
            ∧ connections r.2 !! i
              = Some (Connection.set_status Connection.declined c))
  ∧ posts r.2 = posts s ∧ jobs r.2 = jobs s ∧ messages r.2 = messages s
  ∧ notifications r.2 = notifications s.
Proof.
  intros Ho r. subst r. rewrite (removeConnection_effect me userId o s Ho).
  cbn [fst snd users connections posts jobs messages notifications].
  split_and!; try reflexivity.
  - intros k u Hk. rewrite !lookup_alter.
    destruct (decide (o = k)) as [->|Hok], (decide (_id me = k)) as [Hmk|Hmk];
      rewrite ?Hmk, Hk; cbn; eexists; (split; [reflexivity|]); cbn;
      split_and!; intros; subst;
      eauto using pull_absent, pull_subset, pull_keeps; try done.
  - intros i c Hc.
    destruct (List.find _ _) as [[j d]|] eqn:E; [|eauto 10].
    apply List.find_some in E as [Hin Hq]. cbn in Hq.
    apply list_elem_of_In, elem_of_map_to_list in Hin.
    apply andb_true_iff in Hq as [Hb Hs%bool_decide_eq_true].
    cbn [fst]. rewrite lookup_alter. case_decide as Hj; [subst j|eauto 10].
    rewrite Hc. cbn. eexists. split; [reflexivity|]. cbn.
    assert (d = c) as -> by congruence. split_and!; try done. right. done.
  - intros (i & c & Hc & Hb & Hs).
    destruct (find_is_Some
      (λ d : ObjectId * Connection.t,
         betweenPair (_id me) o d.2
         && bool_decide (Connection.status d.2 = Connection.accepted))
      (map_to_list (connections s)) (i, c)) as [[j d] E].
    { by apply elem_of_map_to_list. }
    { cbn. rewrite Hb. by apply bool_decide_eq_true_2. }
    rewrite E. cbn [fst].
    apply List.find_some in E as [Hin Hq]. cbn in Hq.
    apply list_elem_of_In, elem_of_map_to_list in Hin.
    apply andb_true_iff in Hq as [Hb' Hs'%bool_decide_eq_true].
    exists j, d. rewrite lookup_alter_eq, Hin. done.
Qed.



(** ** Mutual connections *)

Lemma getMutualConnections_found (me : Auth) (userId : string) (o : ObjectId)
    (um uo : User.t) (s : Store) :
  castObjectId userId = Some o →
  users s !! _id me = Some um → users s !! o = Some uo →
  let ids := List.filter (λ i, bool_decide (i ∈ User.connections uo))
               (User.connections um) in
  let found := List.filter (λ d, bool_decide (d.1 ∈ ids)) (map_to_list (users s)) in
  getMutualConnections me userId s
  = (answer 200 "" (found, length found), s).
Proof.
  intros Ho Hm Huo. unfold getMutualConnections. run'.
  cbn [fst snd]. rewrite Hm, Ho. cbn [fst snd]. by rewrite Huo.
Qed.

Lemma mutual_ids (l1 l2 : list ObjectId) (k : ObjectId) :
  k ∈ List.filter (λ i, bool_decide (i ∈ l2)) l1 ↔ k ∈ l1 ∧ k ∈ l2.
Proof.
  rewrite list_elem_of_In, List.filter_In, <- list_elem_of_In, bool_decide_eq_true.
  done.
Qed.

(** X6.  Mutual connections are symmetric: A asking about B and B asking
    about A get the same accounts with the same count; each account is
    listed once, and an account is listed exactly when it has a document
    and its id is in the connection arrays of both. *)
Theorem mutual_connections_symmetric (A B : Auth) (ua ub : User.t) (s : Store) :
  castObjectId (_id A) = Some (_id A) → castObjectId (_id B) = Some (_id B) →
  users s !! _id A = Some ua → users s !! _id B = Some ub →
  ∃ found,
    getMutualConnections A (_id B) s = (answer 200 "" (found, length found), s)
    ∧ getMutualConnections B (_id A) s = (answer 200 "" (found, length found), s)
    ∧ NoDup found
    ∧ ∀ k u, (k, u) ∈ found ↔
        users s !! k = Some u ∧ k ∈ User.connections ua ∧ k ∈ User.connections ub.
Proof.
  intros HA HB Hua Hub.
  rewrite (getMutualConnections_found A (_id B) (_id B) ua ub s HB Hua Hub).
  rewrite (getMutualConnections_found B (_id A) (_id A) ub ua s HA Hub Hua).
  eexists. split; [reflexivity|]. split_and!.
  - do 3 f_equal.
    all: erewrite List.filter_ext; [reflexivity|]; intros [k u]; cbn;
      apply bool_decide_ext; rewrite !mutual_ids; tauto.
  - apply NoDup_ListNoDup, List.NoDup_filter, NoDup_ListNoDup, NoDup_map_to_list.
  - intros k u.
    rewrite list_elem_of_In, List.filter_In, <- list_elem_of_In, elem_of_map_to_list.
    cbn. rewrite bool_decide_eq_true, mutual_ids. tauto.
Qed.


Lemma declined_request_blocks_new_ones_witness :
  status (sendRequest alice (Some (_id bob)) None 9 id3 id4
            (processRequest bob id1 "decline" 5 id2 pendingStore).2).1 = 400%nat.
Proof.
  refine (f_equal (λ r : Response * Store, status r.1)
    (proj1 (proj2 (declined_request_blocks_new_ones bob alice id1 id1
      (Connection.mk (_id alice) (_id bob) Connection.pending "Let's connect" None 0)
      5 9 id2 id3 id4 None pendingStore _ _ _ _ _ _ _ _ _ _))));
    try (vm_compute; reflexivity); try discriminate; vm_compute; by eexists.
Defined.

Lemma removeConnection_disconnects_witness :
  (removeConnection bob (_id alice) acceptedStore).1
  = ok 200 "Connection removed successfully" NoPayload.
Proof.
  refine (proj1 (removeConnection_disconnects bob (_id alice) (_id alice)
                   acceptedStore _)).
  vm_compute; reflexivity.
Defined.


Lemma mutual_connections_symmetric_witness :
  ∃ found,
    getMutualConnections alice (_id bob) acceptedStore
    = (answer 200 "" (found, length found), acceptedStore).
Proof.
  destruct (mutual_connections_symmetric alice bob
              (User.mk "Alice" "Alice@example.com" [_id bob] [] [] false)
              (User.mk "Bob" "Bob@example.com" [_id alice] [] [] false)
              acceptedStore) as (found & H & _);
    try (vm_compute; reflexivity).
  by exists found.
Defined.

(** ** More on posts *)

(** X7.  Only the author of a post or an administrator can delete it:
    anybody else is answered 403 and nothing changes.  A permitted
    delete removes that post and no other, the post is in no feed any
    more, and deleting it again is answered 404. *)
Theorem deletePost_author_or_admin (me : Auth) (id : string) (pid : ObjectId)
    (p : Post.t) (s : Store) :
  castObjectId id = Some pid → posts s !! pid = Some p →
  let r := deletePost me id s in
  (Post.author p ≠ _id me → isAdmin me = false →
     r = (fail 403 "Not authorized to delete this post", s))
  ∧ (Post.author p = _id me ∨ isAdmin me = true →
     r = (ok 200 "Post deleted successfully" NoPayload, set_posts (delete pid) s)
     ∧ posts r.2 !! pid = None
     ∧ (∀ j, j ≠ pid → posts r.2 !! j = posts s !! j)
     ∧ (∀ ids q, (pid, q) ∉ feedListing ids r.2)
     ∧ deletePost me id r.2 = (fail 404 "Post not found", r.2)).
Proof.
  intros Hid Hp r. subst r. unfold deletePost. run'. rewrite Hid. cbn [fst snd].
  rewrite Hp. split.
  - intros Ha ->. by rewrite bool_decide_eq_true_2.
  - intros Hok.
    assert (bool_decide (Post.author p ≠ _id me) && negb (isAdmin me) = false) as ->.
    { destruct Hok as [Ha| ->]; [|by rewrite andb_false_r].
      rewrite bool_decide_eq_false_2; [done|]. intros H; by apply H. }
    cbn [fst snd posts set_posts]. rewrite lookup_delete_eq.
    split_and!; try done.
    + intros j Hj. by rewrite lookup_delete_ne.
    + intros ids q [Hq _]%feedListing_elem. cbn in Hq.
      by rewrite lookup_delete_eq in Hq.
Qed.

Lemma find_sharer_None (u : ObjectId) (l : list Post.Share) :
  (∀ sh, sh ∈ l → Post.sharer sh ≠ u) →
  List.find (λ sh, bool_decide (Post.sharer sh = u)) l = None.
Proof.
  intros H. apply find_None_all. intros sh Hin.
  apply bool_decide_eq_false_2. by apply H.
Qed.

(** X8.  An account shares a post at most once: a first share appends
    one share entry of the caller and reports the new count, a second
    one is answered 400 "Post already shared" and writes nothing; so a
    share list without two entries of one account stays so. *)
Theorem share_at_most_once (me : Auth) (id : string) (pid : ObjectId) (p : Post.t)
    (now now' : Date) (nid nid' : ObjectId) (s : Store) :
  castObjectId id = Some pid → posts s !! pid = Some p →
  let r := sharePost me id now nid s in
  ((∃ sh, sh ∈ Post.shares p ∧ Post.sharer sh = _id me) →
     r = (fail 400 "Post already shared", s))
  ∧ ((∀ sh, sh ∈ Post.shares p → Post.sharer sh ≠ _id me) →
     r.1 = ok 200 "Post shared successfully" (SharesCount (S (length (Post.shares p))))
     ∧ Post.shares <$> posts r.2 !! pid
       = Some (Post.shares p ++ [Post.mkShare (_id me) now])
     ∧ sharePost me id now' nid' r.2 = (fail 400 "Post already shared", r.2))
  ∧ (NoDup (Post.sharer <$> Post.shares p) →
     ∀ p', posts r.2 !! pid = Some p' → NoDup (Post.sharer <$> Post.shares p')).
Proof.
  intros Hid Hp r.
  assert (∀ t n s0 p0, posts s0 !! pid = Some p0 →
            (∃ sh, sh ∈ Post.shares p0 ∧ Post.sharer sh = _id me) →
            sharePost me id t n s0 = (fail 400 "Post already shared", s0)) as Hdup.
  { intros t n s0 p0 Hp0 (sh & Hin & Hsh). unfold sharePost. run. rewrite Hid.
    cbn [fst snd]. rewrite Hp0.
    destruct (find_is_Some (λ x, bool_decide (Post.sharer x = _id me))
                (Post.shares p0) sh Hin) as [x ->]; [|done].
    by apply bool_decide_eq_true_2. }
  assert ((∀ sh, sh ∈ Post.shares p → Post.sharer sh ≠ _id me) →
          r.1 = ok 200 "Post shared successfully"
                  (SharesCount (S (length (Post.shares p))))
          ∧ posts r.2
            = <[pid := Post.preSave
                         (Post.set_shares
                            (Post.shares p ++ [Post.mkShare (_id me) now]) p)]>
                (posts s)) as Hnew.
  { intros Hnone. subst r. unfold sharePost. run. rewrite Hid. cbn [fst snd].
    rewrite Hp, find_sharer_None by done.
    cbn [Post.author Post.set_shares Post.shares].
    rewrite length_app, Nat.add_1_r. by case_bool_decide. }
  split_and!.
  - intros Hex. subst r. by eapply Hdup.
  - intros Hnone. destruct (Hnew Hnone) as [Hr Hs]. split_and!; [done| |].
    + by rewrite Hs, lookup_insert_eq.
    + eapply Hdup.
      * by rewrite Hs, lookup_insert_eq.
      * exists (Post.mkShare (_id me) now). split; [|reflexivity]. cbn.
        apply elem_of_app. right. apply list_elem_of_here.
  - intros Hnd p' Hp'.
    destruct (List.find (λ sh, bool_decide (Post.sharer sh = _id me)) (Post.shares p))
      as [sh|] eqn:E.
    + apply List.find_some in E as [Hin Hsh%bool_decide_eq_true].
      apply list_elem_of_In in Hin.
      unfold r in Hp'. rewrite (Hdup now nid s p Hp) in Hp' by eauto. cbn in Hp'.
      by assert (p' = p) as -> by congruence.
    + assert (∀ sh, sh ∈ Post.shares p → Post.sharer sh ≠ _id me) as Hnone.
      { intros sh Hin%list_elem_of_In Hsh.
        pose proof (List.find_none _ _ E sh Hin) as Hf. cbn in Hf.
        by rewrite bool_decide_eq_true_2 in Hf. }
      destruct (Hnew Hnone) as [_ Hs]. rewrite Hs, lookup_insert_eq in Hp'.
      injection Hp' as <-. cbn. rewrite fmap_app. cbn.
      apply NoDup_app. split_and!; [done| |apply NoDup_singleton].
      intros x Hx Hx'. apply list_elem_of_singleton in Hx'. subst x.
      apply list_elem_of_fmap in Hx as [sh [Heq Hin]].
      by apply (Hnone sh Hin).
Qed.



(** ** Listings, newest first *)

Global Instance newestFirst_total {A} (f : A → Date) : Total (newestFirst f).
Proof. intros a b. unfold newestFirst. lia. Qed.

Global Instance newestFirst_trans {A} (f : A → Date) : Transitive (newestFirst f).
Proof. intros a b c. unfold newestFirst. lia. Qed.

Lemma newestPosts_elem q s i p :
  (i, p) ∈ newestPosts q s ↔ posts s !! i = Some p ∧ q p = true.
Proof.
  unfold newestPosts. rewrite merge_sort_Permutation.
  apply elem_of_filter_map_to_list.
Qed.

Lemma newestPosts_sorted q s :
  StronglySorted (newestFirst Post.createdAt) (newestPosts q s).
Proof. apply StronglySorted_merge_sort; apply _. Qed.

Lemma newestPosts_length q s :
  length (newestPosts q s)
  = length (List.filter (λ d, q d.2) (map_to_list (posts s))).
Proof. unfold newestPosts. by rewrite merge_sort_Permutation. Qed.



(** X12.  The posts of an account are listed newest first to any
    caller: the listing holds every post of that author, whatever its
    visibility (private posts included), and does not depend on who
    asks. *)
Theorem user_posts_ignore_visibility (me other : Auth) (id : string)
    (author : ObjectId) (page limit : positive) (s : Store) :
  castObjectId id = Some author →
  let found := newestPosts (λ p, bool_decide (Post.author p = author)) s in
  getUserPosts me id page limit s
  = (ok 200 "" (PostPage (paginate page limit found)
                  (totalPages (length found) limit) page), s)
  ∧ getUserPosts other id page limit s = getUserPosts me id page limit s
  ∧ (∀ i p, (i, p) ∈ found ↔ posts s !! i = Some p ∧ Post.author p = author)
  ∧ StronglySorted (newestFirst Post.createdAt) found.
Proof.
  intros Hid found. split_and!.
  - subst found. unfold getUserPosts. run. rewrite Hid. cbn [fst snd].
    by rewrite newestPosts_length.
  - reflexivity.
  - intros i p. unfold found. by rewrite newestPosts_elem, bool_decide_eq_true.
  - apply newestPosts_sorted.
Qed.

(** ** Paging *)

Lemma paginate_S {A} (k : nat) (limit : positive) (l : list A) :
  paginate (Pos.of_nat (S k)) limit l
  = take (Pos.to_nat limit) (drop (k * Pos.to_nat limit) l).
Proof.
  unfold paginate. rewrite Nat2Pos.id by done. by rewrite Nat.sub_succ, Nat.sub_0_r.
Qed.

Lemma pages_concat {A} (n : nat) (l : list A) (k : nat) :
  concat ((λ i, take n (drop (i * n) l)) <$> seq 0 k) = take (k * n) l.
Proof.
  induction k as [|k IH]; [done|].
  rewrite seq_S, fmap_app, concat_app, IH. cbn [plus fmap list_fmap concat].
  rewrite app_nil_r, take_take_drop. f_equal. lia.
Qed.

Lemma totalPages_cover (total : nat) (limit : positive) :
  (total ≤ totalPages total limit * Pos.to_nat limit)%nat.
Proof.
  unfold totalPages. pose proof (Pos2Nat.is_pos limit).
  set (n := Pos.to_nat limit) in *.
  pose proof (Nat.div_mod_eq (total + n - 1) n).
  pose proof (Nat.mod_upper_bound (total + n - 1) n). nia.
Qed.

(** X13.  Paging loses and repeats nothing: the pages 1 to totalPages of
    a listing, one after the other, are the listing; a page never holds
    more than [limit] entries, a page after the last one is empty, and
    an empty listing has zero pages. *)
Theorem pages_partition_the_listing {A} (limit page : positive) (l : list A) :
  concat ((λ k, paginate (Pos.of_nat k) limit l)
            <$> seq 1 (totalPages (length l) limit)) = l
  ∧ (length (paginate page limit l) ≤ Pos.to_nat limit)%nat
  ∧ ((totalPages (length l) limit < Pos.to_nat page)%nat → paginate page limit l = [])
  ∧ (l = [] → totalPages (length l) limit = 0%nat).
Proof.
  split_and!.
  - rewrite <- (fmap_S_seq 0), <- list_fmap_compose.
    erewrite list_fmap_ext; [|intros i x _; apply (paginate_S x limit l)].
    rewrite pages_concat. apply take_ge, totalPages_cover.
  - unfold paginate. rewrite length_take. lia.
  - intros Hlt. unfold paginate. rewrite drop_ge; [apply take_nil|].
    pose proof (totalPages_cover (length l) limit). nia.
  - intros ->. unfold totalPages. cbn [length]. apply Nat.div_small.
    pose proof (Pos2Nat.is_pos limit). lia.
Qed.

(** ** Hashtag extraction *)

Lemma lowerChar_word (c : ascii) :
  Js.isWord c = true →
  Js.isDigit (Js.lowerChar c) || Js.isLower (Js.lowerChar c)
  || Nat.eqb (Js.code (Js.lowerChar c)) 95 = true.
Proof.
  destruct c as [[] [] [] [] [] [] [] []]; vm_compute; intros; congruence.
Qed.

Lemma lowerChar_tagChar (c : ascii) :
  Js.isDigit c || Js.isLower c || Nat.eqb (Js.code c) 95 = true → Js.lowerChar c = c.
Proof.
  destruct c as [[] [] [] [] [] [] [] []]; vm_compute; intros; congruence.
Qed.

Lemma lowered_word_chars (l : list ascii) :
  Forall (λ c, Js.isWord c = true) l →
  Js.all (λ c, Js.isDigit c || Js.isLower c || Nat.eqb (Js.code c) 95)
    (Js.toLowerCase (String.string_of_list_ascii l)) = true.
Proof.
  induction 1 as [|c l Hc _ IH]; [done|]. cbn [String.string_of_list_ascii
    Js.toLowerCase Js.all]. rewrite IH, andb_true_r. by apply lowerChar_word.
Qed.

Lemma flushTag_wellformed (cur : option (list ascii)) (tag : string) :
  (∀ t, cur = Some t → Forall (λ c, Js.isWord c = true) t) →
  tag ∈ flushTag cur →
  tag ≠ ""
  ∧ Js.all (λ c, Js.isDigit c || Js.isLower c || Nat.eqb (Js.code c) 95) tag = true.
Proof.
  intros Hcur. destruct cur as [[|c t]|]; cbn [flushTag];
    try (intros Hin; by apply elem_of_nil in Hin).
  intros ->%list_elem_of_singleton. split.
  - cbn [rev]. destruct (rev t); cbn; discriminate.
  - apply lowered_word_chars, Forall_rev. by apply Hcur.
Qed.

Lemma scanHashtags_wellformed (text : string) (cur : option (list ascii)) (tag : string) :
  (∀ t, cur = Some t → Forall (λ c, Js.isWord c = true) t) →
  tag ∈ scanHashtags cur text →
  tag ≠ ""
  ∧ Js.all (λ c, Js.isDigit c || Js.isLower c || Nat.eqb (Js.code c) 95) tag = true.
Proof.
  revert cur. induction text as [|c text IH]; intros cur Hcur; cbn [scanHashtags].
  { by apply flushTag_wellformed. }
  assert (∀ t, (if Ascii.eqb c "#" then Some [] else None) = Some t →
               Forall (λ c, Js.isWord c = true) t) as Hfresh.
  { intros t. destruct (Ascii.eqb c "#"); intros [= <-]. constructor. }
  destruct cur as [t|]; [|by apply IH].
  destruct (Js.isWord c) eqn:Hc.
  - apply IH. intros t' [= <-]. constructor; [done|]. by apply Hcur.
  - intros [Hin|Hin]%elem_of_app.
    + by apply (flushTag_wellformed (Some t)).
    + by apply (IH _ Hfresh).
Qed.

Lemma toLowerCase_tag (tag : string) :
  Js.all (λ c, Js.isDigit c || Js.isLower c || Nat.eqb (Js.code c) 95) tag = true →
  Js.toLowerCase tag = tag.
Proof.
  induction tag as [|c tag IH]; [done|]. cbn [Js.all Js.toLowerCase].
  intros [Hc Ht]%andb_true_iff. by rewrite IH, lowerChar_tagChar.
Qed.

Lemma scanHashtags_no_hash (text : string) :
  Js.all (λ c, negb (Ascii.eqb c "#")) text = true → scanHashtags None text = [].
Proof.
  induction text as [|c text IH]; [done|]. cbn [Js.all scanHashtags].
  intros [Hc Ht]%andb_true_iff. destruct (Ascii.eqb c "#"); [done|]. by apply IH.
Qed.

(** X14.  Every hashtag the client extracts is non-empty and made of
    lower-case letters, digits and underscores only; so the lower-casing
    the create route applies to the tags it receives changes nothing;
    and a text without [#] has no hashtag. *)
Theorem extractHashtags_wellformed (text : string) :
  (∀ tag, tag ∈ extractHashtags text →
     tag ≠ ""
     ∧ Js.all (λ c, Js.isDigit c || Js.isLower c || Nat.eqb (Js.code c) 95) tag = true)
  ∧ map Js.toLowerCase (extractHashtags text) = extractHashtags text
  ∧ (Js.all (λ c, negb (Ascii.eqb c "#")) text = true → extractHashtags text = []).
Proof.
  assert (∀ tag, tag ∈ extractHashtags text →
     tag ≠ ""
     ∧ Js.all (λ c, Js.isDigit c || Js.isLower c || Nat.eqb (Js.code c) 95) tag = true)
    as Hwf.
  { intros tag. apply scanHashtags_wellformed. intros t; discriminate. }
  split_and!; [done| |apply scanHashtags_no_hash].
  rewrite <- (List.map_id (extractHashtags text)) at 2.
  apply List.map_ext_in. intros tag Hin%list_elem_of_In.
  apply toLowerCase_tag. by apply Hwf.
Qed.

Lemma deletePost_author_or_admin_witness :
  deletePost bob id1 onePost = (fail 403 "Not authorized to delete this post", onePost).
Proof.
  refine (proj1 (deletePost_author_or_admin bob id1 id1 helloPost onePost _ _) _ _);
    try (vm_compute; reflexivity). discriminate.
Defined.

Lemma share_at_most_once_witness :
  (sharePost bob id1 13 id4 onePost).1
  = ok 200 "Post shared successfully" (SharesCount 1).
Proof.
  refine (proj1 (proj1 (proj2
    (share_at_most_once bob id1 id1 helloPost 13 14 id4 id3 onePost _ _)) _));
    try (vm_compute; reflexivity).
  intros sh Hin. by apply elem_of_nil in Hin.
Defined.



Lemma user_posts_ignore_visibility_witness :
  getUserPosts bob (_id alice) 1 10 onePost
  = getUserPosts alice (_id alice) 1 10 onePost.
Proof.
  refine (proj1 (proj2
    (user_posts_ignore_visibility alice bob (_id alice) (_id alice) 1 10 onePost _))).
  vm_compute; reflexivity.
Defined.

Example listing_samples :
  (getPostsByHashtag bob "TEST" 1 10 onePost).1
  = (ok 200 "" (PostPage [(id1, helloPost)] 1 1), Some "test")
  ∧ (getPostsByHashtag bob "other" 1 10 onePost).1
    = (ok 200 "" (PostPage [] 0 1), Some "other")
  ∧ paginate 2 2 [1; 2; 3; 4; 5] = [3; 4] ∧ totalPages 5 2 = 3%nat.
Proof. vm_compute. repeat split. Qed.

(** ** More on jobs *)

(** X15.  The list of the caller's own applications cannot be reached:
    the job router registers GET [/:id/applications] before GET
    [/my/applications], so the request is handled as the applications
    of the job with id [my], whose cast fails: the answer is 500
    "Error fetching applications" and nothing changes, whatever the
    handler of [/my/applications] does. *)
Theorem my_applications_is_shadowed (me : Auth) (page limit : option positive)
    (unread : option string) (now : Date) (coverLetter resumeUrl : option string)
    (nid : ObjectId)
    (createJob listJobs updateApplicationStatus myApplications updateJob :
       Request → Params → Handler) (s : Store) :
  (λ handler, handler s)
    <$> dispatch
          (jobRouter coverLetter resumeUrl nid createJob listJobs
             updateApplicationStatus myApplications updateJob)
          (mkRequest GET "/my/applications" me page limit unread now)
  = Some (fail 500 "Error fetching applications", s).
Proof. vm_compute. reflexivity. Qed.

(** X16.  Only the poster of a job or an administrator can delete it:
    anybody else is answered 403 and nothing changes.  A permitted
    delete removes that job and no other; applying to it, or deleting
    it again, is then answered 404. *)
Theorem deleteJob_poster_or_admin (me : Auth) (id : string) (jid : ObjectId)
    (j : Job.t) (coverLetter resumeUrl : option string) (now : Date) (nid : ObjectId)
    (s : Store) :
  castObjectId id = Some jid → jobs s !! jid = Some j →
  let r := deleteJob me id s in
  (Job.poster j ≠ _id me → isAdmin me = false →
     r = (fail 403 "Not authorized to delete this job", s))
  ∧ (Job.poster j = _id me ∨ isAdmin me = true →
     r = (ok 200 "Job deleted successfully" NoPayload, set_jobs (delete jid) s)
     ∧ jobs r.2 !! jid = None
     ∧ (∀ k, k ≠ jid → jobs r.2 !! k = jobs s !! k)
     ∧ applyToJob me id coverLetter resumeUrl now nid r.2
       = (fail 404 "Job not found", r.2)
     ∧ deleteJob me id r.2 = (fail 404 "Job not found", r.2)).
Proof.
  intros Hid Hj r. subst r. unfold deleteJob, applyToJob. run. rewrite Hid.
  cbn [fst snd]. rewrite Hj. split.
  - intros Ha ->. by rewrite bool_decide_eq_true_2.
  - intros Hok.
    assert (bool_decide (Job.poster j ≠ _id me) && negb (isAdmin me) = false) as ->.
    { destruct Hok as [Ha| ->]; [|by rewrite andb_false_r].
      rewrite bool_decide_eq_false_2; [done|]. intros H; by apply H. }
    cbn [fst snd jobs set_jobs]. rewrite lookup_delete_eq.
    split_and!; try done. intros k Hk. by rewrite lookup_delete_ne.
Qed.



(** X18.  The applications of a job are shown to its poster only:
    another account is answered 403.  The poster gets the applications
    in the order they were made, with the job's title, and after an
    accepted application of a new applicant to the open job the list is
    the old one followed by that application, in state [applied]. *)
Theorem applications_are_for_the_poster (me applicant : Auth) (id : string)
    (jid : ObjectId) (j : Job.t) (coverLetter resumeUrl : option string) (now : Date)
    (nid : ObjectId) (s : Store) :
  castObjectId id = Some jid → jobs s !! jid = Some j →
  (Job.poster j ≠ _id me →
     getJobApplications me id s
     = (refuse 403 "Not authorized to view applications", s))
  ∧ (Job.poster j = _id me →
     getJobApplications me id s = (answer 200 "" (Job.applications j, Job.title j), s)
     ∧ (Job.isActive j = true →
        (∀ app, app ∈ Job.applications j → Job.applicant app ≠ _id applicant) →
        (getJobApplications me id
           (applyToJob applicant id coverLetter resumeUrl now nid s).2).1
        = answer 200 ""
            (Job.applications j ++
               [Job.mkApplication (_id applicant) coverLetter resumeUrl Job.applied now],
             Job.title j))).
Proof.
  intros Hid Hj. unfold getJobApplications, applyToJob. run'. rewrite Hid.
  cbn [fst snd]. rewrite Hj. split_and!.
  - intros Hp. by rewrite bool_decide_eq_true_2.
  - intros Hp.
    rewrite (bool_decide_eq_false_2 (Job.poster j ≠ _id me)) by (intros H; by apply H).
    split; [done|]. intros -> Hnone. cbn [negb].
    rewrite find_applicant_None by done.
    cbn [fst snd jobs set_jobs set_notifications]. rewrite lookup_insert_eq.
    cbn [Job.poster Job.set_applications].
    by rewrite (bool_decide_eq_false_2 (Job.poster j ≠ _id me)) by (intros H; by apply H).
Qed.

Lemma deleteJob_poster_or_admin_witness :
  deleteJob bob id1 openJobStore
  = (fail 403 "Not authorized to delete this job", openJobStore).
Proof.
  refine (proj1 (deleteJob_poster_or_admin bob id1 id1
    (Job.mk "Engineer" "Acme" (_id alice) [] true 0) None None 7 id2 openJobStore
    _ _) _ _); try (vm_compute; reflexivity). discriminate.
Defined.


Lemma applications_are_for_the_poster_witness :
  getJobApplications bob id1 openJobStore
  = (refuse 403 "Not authorized to view applications", openJobStore).
Proof.
  refine (proj1 (applications_are_for_the_poster bob bob id1 id1
    (Job.mk "Engineer" "Acme" (_id alice) [] true 0) None None 7 id2 openJobStore
    _ _) _); try (vm_compute; reflexivity). discriminate.
Defined.

(** ** More on notifications *)

Lemma filter_none_all {A} (f : A → bool) (l : list A) :
  (∀ x, x ∈ l → f x = false) → List.filter f l = [].
Proof.
  induction l as [|x l IH]; [done|]. intros H. cbn.
  rewrite (H x) by apply list_elem_of_here.
  apply IH. intros y Hy. apply H. by apply list_elem_of_further.
Qed.

(** X19.  Marking all as read marks every unread notification of the
    caller, and nothing else: afterwards no notification of the caller
    is unread, a notification of another account or one already read is
    what it was, the list route reports an unread count of zero, and
    its unread-only listing is empty. *)
Theorem markAllRead_clears_unread (me : Auth) (now : Date) (page limit : positive)
    (s : Store) :
  let r := markAllRead me now s in
  r.1 = ok 200 "All notifications marked as read" NoPayload
  ∧ (∀ i, notifications r.2 !! i
          = (λ n, if bool_decide (Notification.recipient n = _id me)
                     && negb (Notification.isRead n)
                  then Notification.markRead now n else n) <$> notifications s !! i)
  ∧ (∀ i n, notifications r.2 !! i = Some n → Notification.recipient n = _id me →
            Notification.isRead n = true)
  ∧ (∀ i n, notifications s !! i = Some n →
            Notification.recipient n ≠ _id me ∨ Notification.isRead n = true →
            notifications r.2 !! i = Some n)
  ∧ (∃ items pages total,
       payload (getNotifications me page limit None r.2).1
       = NotificationPage items pages page total 0)
  ∧ (∃ pages,
       payload (getNotifications me page limit (Some "true") r.2).1
       = NotificationPage [] pages page 0 0).
Proof.
  intros r.
  assert (r = (ok 200 "All notifications marked as read" NoPayload,
               set_notifications (fmap (λ n,
                 if bool_decide (Notification.recipient n = _id me)
                    && negb (Notification.isRead n)
                 then Notification.markRead now n else n)) s)) as -> by done.
  cbn [fst snd notifications set_notifications].
  assert (∀ i n,
    ((λ n, if bool_decide (Notification.recipient n = _id me)
              && negb (Notification.isRead n)
           then Notification.markRead now n else n) <$> notifications s) !! i = Some n →
    Notification.recipient n = _id me → Notification.isRead n = true) as Hread.
  { intros i n. rewrite lookup_fmap. destruct (notifications s !! i) as [n0|]; [|done].
    cbn. intros [= <-]. case_bool_decide as Hr; cbn [andb].
    - destruct (Notification.isRead n0) eqn:E; cbn; done.
    - cbn. intros. by destruct Hr. }
  assert (List.filter (λ d : ObjectId * Notification.t, listQuery me (Some "true") d.2)
            (map_to_list ((λ n, if bool_decide (Notification.recipient n = _id me)
                                   && negb (Notification.isRead n)
                                then Notification.markRead now n else n)
                          <$> notifications s)) = []) as Hnone.
  { apply filter_none_all. intros [i n] Hin%elem_of_map_to_list.
    unfold listQuery. cbn. rewrite (bool_decide_eq_true_2 (Some "true" = Some "true"))
      by done.
    case_bool_decide as Hr; [|done]. cbn. by rewrite (Hread i n Hin Hr). }
  split_and!.
  - done.
  - intros i. by rewrite lookup_fmap.
  - exact Hread.
  - intros i n Hn Hor. rewrite lookup_fmap, Hn. cbn. f_equal.
    destruct Hor as [Hr| ->].
    + by rewrite bool_decide_eq_false_2.
    + by rewrite andb_false_r.
  - unfold getNotifications. run. cbn [fst snd notifications set_notifications payload ok].
    rewrite Hnone. do 3 eexists. reflexivity.
  - unfold getNotifications. run. cbn [fst snd notifications set_notifications payload ok].
    rewrite Hnone. eexists. cbn [merge_sort merge_sort_aux merge_stack length].
    unfold paginate. by rewrite drop_nil, take_nil.
Qed.

(** X20.  A notification can be marked as read and deleted by its
    recipient only: another account is answered 403 by both routes and
    nothing changes.  For the recipient, marking sets [isRead] and
    [readAt] on that notification, deleting removes it, neither touches
    another notification, and a second delete is answered 404. *)
Theorem notifications_belong_to_their_recipient (me : Auth) (id : string)
    (nid : ObjectId) (n : Notification.t) (now : Date) (s : Store) :
  castObjectId id = Some nid → notifications s !! nid = Some n →
  let marked := markNotificationRead me id now s in
  let deleted := deleteNotification me id s in
  (Notification.recipient n ≠ _id me →
     marked = (fail 403 "Not authorized", s) ∧ deleted = (fail 403 "Not authorized", s))
  ∧ (Notification.recipient n = _id me →
     marked = (ok 200 "Notification marked as read" NoPayload,
               set_notifications <[nid := Notification.markRead now n]> s)
     ∧ deleted = (ok 200 "Notification deleted" NoPayload,
                  set_notifications (delete nid) s)
     ∧ notifications deleted.2 !! nid = None
     ∧ (∀ k, k ≠ nid → notifications deleted.2 !! k = notifications s !! k
                       ∧ notifications marked.2 !! k = notifications s !! k)
     ∧ deleteNotification me id deleted.2
       = (fail 404 "Notification not found", deleted.2)).
Proof.
  intros Hid Hn marked deleted. subst marked deleted.
  unfold markNotificationRead, deleteNotification. run. rewrite Hid.
  cbn [fst snd]. rewrite Hn. split.
  - intros Hr. by rewrite bool_decide_eq_true_2.
  - intros Hr.
    rewrite (bool_decide_eq_false_2 (Notification.recipient n ≠ _id me))
      by (intros H; by apply H).
    cbn [fst snd notifications set_notifications]. rewrite lookup_delete_eq.
    split_and!; try done.
    intros k Hk. by rewrite lookup_delete_ne, lookup_insert_ne.
Qed.

Lemma notifications_belong_to_their_recipient_witness :
  deleteNotification bob id2 acceptedStore = (fail 403 "Not authorized", acceptedStore).
Proof.
  refine (proj2 (proj1 (notifications_belong_to_their_recipient bob id2 id2
    (Notification.mk (_id alice) (_id bob) Notification.connection_accepted
       "Connection Accepted" "Bob accepted your connection request" None None
       (Some (_id bob)) false None 5)
    9 acceptedStore _ _) _)); try (vm_compute; reflexivity). discriminate.
Defined.

(** ** More on messages *)

(** X21.  Deleting a conversation deletes exactly the messages of that
    conversation that the caller sent or received, and reports how many
    they were; every other message, and every other collection, is
    kept.  A caller who is no party to any message of the conversation
    deletes nothing and is told so. *)
Theorem deleteConversation_removes_own_messages (me : Auth) (cid : string)
    (s : Store) :
  let r := deleteConversation me cid s in
  let mine := filter (λ d, ownIn me cid d.2) (messages s) in
  r.1 = ok 200 ("Deleted " +:+ pretty (size mine) +:+ " messages") NoPayload
  ∧ (∀ i m, messages r.2 !! i = Some m ↔
       messages s !! i = Some m
       ∧ ¬ (Message.conversationId m = Some cid
            ∧ (Message.sender m = _id me ∨ Message.recipient m = _id me)))
  ∧ ((∀ i m, messages s !! i = Some m → Message.conversationId m = Some cid →
             Message.sender m ≠ _id me ∧ Message.recipient m ≠ _id me) →
     r = (ok 200 "Deleted 0 messages" NoPayload, s))
  ∧ users r.2 = users s ∧ connections r.2 = connections s ∧ posts r.2 = posts s
  ∧ jobs r.2 = jobs s ∧ notifications r.2 = notifications s.
Proof.
  intros r mine. subst r mine. unfold deleteConversation. run.
  cbn [fst snd messages set_messages users connections posts jobs notifications].
  split_and!; try reflexivity.
  - intros i m. by rewrite map_lookup_filter_Some.
  - intros Hnone.
    assert (filter (λ d : ObjectId * Message.t, ownIn me cid d.2) (messages s) = ∅)
      as ->.
    { apply map_empty. intros i. apply map_lookup_filter_None. right.
      intros m Hm [Hc Hor]. cbn in *.
      destruct (Hnone i m Hm Hc). by destruct Hor. }
    assert (filter (λ d : ObjectId * Message.t, ¬ ownIn me cid d.2) (messages s)
            = messages s) as Hall.
    { apply map_eq. intros i. destruct (messages s !! i) as [m|] eqn:Hm.
      - apply map_lookup_filter_Some. split; [done|]. intros [Hc Hor]. cbn in *.
        destruct (Hnone i m Hm Hc). by destruct Hor.
      - apply map_lookup_filter_None. by left. }
    unfold set_messages. rewrite Hall. by destruct s.
Qed.

(** X22.  Fetching a conversation marks exactly what the mark-read route
    marks for that conversation.  After either, no message of the
    conversation addressed to the caller is unread, so marking again,
    at whatever later time, changes nothing: [readAt] keeps the time of
    the first reading. *)
Theorem reading_twice_keeps_the_first_time (me : Auth) (userId cid : string)
    (page limit : positive) (t1 u1 t2 u2 : Date) (s : Store) :
  (getConversation me userId page limit t1 u1 s).2
  = (markConversationRead me (conversationId (_id me) userId) t1 u1 s).2
  ∧ (markConversationRead me cid t2 u2 (markConversationRead me cid t1 u1 s).2).2
    = (markConversationRead me cid t1 u1 s).2
  ∧ (∀ i m, messages (markConversationRead me cid t1 u1 s).2 !! i = Some m →
            unreadFor me cid m = false).
Proof.
  unfold getConversation, markConversationRead. run.
  cbn [fst snd messages set_messages].
  assert (∀ m, unreadFor me cid
                 (if unreadFor me cid m
                  then Message.set_updatedAt u1 (Message.set_readAt (Some t1) m)
                  else m)
               = false) as Hdone.
  { intros m. destruct (unreadFor me cid m) eqn:E; [|done].
    unfold unreadFor. cbn. by rewrite andb_false_r. }
  split_and!.
  - reflexivity.
  - unfold set_messages. cbn. f_equal. rewrite <- map_fmap_compose.
    apply map_fmap_ext. intros i m _. cbn. by rewrite Hdone.
  - intros i m. rewrite lookup_fmap. destruct (messages s !! i) as [m0|]; [|done].
    cbn. intros [= <-]. apply Hdone.
Qed.

Example mailbox_samples :
  message (deleteConversation bob (conversationId (_id alice) (_id bob)) mailbox).1
  = "Deleted 1 messages"
  ∧ messages (deleteConversation bob (conversationId (_id alice) (_id bob)) mailbox).2
    = {[ id2 := noteToSelf ]}
  ∧ Message.readAt
      <$> messages (markConversationRead bob (conversationId (_id alice) (_id bob))
                      50 51
                      (getConversation bob (_id alice) 1 50 40 41 mailbox).2).2 !! id1
    = Some (Some 40).
Proof. vm_compute. repeat split. Qed.

(** ** Following *)




(** ** The socket registry *)







